(** * GG.deals price alert bot: watch state and the price-check cycle

    A shallow embedding of [bot.py]: the watchlist kept in the data file,
    the price query, the [!watch] and [!unwatch] commands and the
    background [price_checker] task, followed by the properties the
    specification states about them.

    Conventions of the embedding.
    - A JSON value stored in the data file or returned by the price API is
      either [null] or a string ([pyval]); a JSON object is a finite map
      from keys to such values.  A missing key and a key bound to [null]
      are told apart exactly where the source does ([d.get(k, dflt)]).
    - [data["games"]] is a Python dict, an insertion-ordered map: an
      association list ([odict]) whose order is the iteration order.
    - Python's builtin [float] is a parameter [py_float]: [None] stands for
      [ValueError]; its results are binary64 numbers, compared with the
      primitive [PrimFloat.ltb] as [<] compares them in Python.
    - What the task and the commands do to the outside (HTTP request,
      message sent to Discord, pause, file write) is recorded as a list of
      [event]s in the order performed; an uncaught exception ends the run
      and keeps the events performed so far.  The answer of the network to
      a request is a parameter [http_get].  Discord sends and file writes
      are taken to succeed; log lines and the embed time stamp are left
      out. *)

From Stdlib Require Import Ascii Floats.
From stdpp Require Import gmap strings list.

Local Open Scope string_scope.
Local Open Scope list_scope.
Local Open Scope nat_scope.

(** ** Python values and dictionaries *)

Inductive pyval : Type :=
  | PNone
  | PStr (s : string).

#[global] Instance pyval_eq_dec : EqDecision pyval.
Proof. solve_decision. Defined.

Abbreviation pydict := (gmap string pyval).

(** [d.get(k)] *)
Definition py_get (d : pydict) (k : string) : pyval :=
  default PNone (d !! k).

(** [d.get(k, dflt)] *)
Definition py_get_or (d : pydict) (k : string) (dflt : pyval) : pyval :=
  default dflt (d !! k).

(** Truth value of [v] in a condition: [None] and [""] are false. *)
Definition truthy (v : pyval) : bool :=
  match v with
  | PNone => false
  | PStr s => negb (String.eqb s "")
  end.

(** [x or y] *)
Definition py_or (x y : pyval) : pyval := if truthy x then x else y.

(** [str(v)], as an f-string interpolates it. *)
Definition py_str (v : pyval) : string :=
  match v with
  | PNone => "None"
  | PStr s => s
  end.

(** ** Drop descriptions and alert embeds *)

Inductive channel : Type := Retail | Keyshops.

#[global] Instance channel_eq_dec : EqDecision channel.
Proof. solve_decision. Defined.

(** One element of [alerts]: the three values the f-string interpolates,
    tagged by the channel whose branch appended it. *)
Record drop_desc : Type := DropDesc {
  d_channel : channel;
  d_old : pyval;
  d_new : pyval;
  d_currency : pyval
}.

#[global] Instance drop_desc_eq_dec : EqDecision drop_desc.
Proof. solve_decision. Defined.

Definition channel_label (c : channel) : string :=
  match c with
  | Retail => "🏷️ **Retail**"
  | Keyshops => "🔑 **Keyshops**"
  end.

(** The text appended to [alerts]. *)
Definition render (d : drop_desc) : string :=
  channel_label (d_channel d) +:+ ": ~~" +:+ py_str (d_old d) +:+ "~~ → **"
    +:+ py_str (d_new d) +:+ " " +:+ py_str (d_currency d) +:+ "**".

Fixpoint join (sep : string) (l : list string) : string :=
  match l with
  | [] => ""
  | [x] => x
  | x :: rest => x +:+ sep +:+ join sep rest
  end.

(** The [discord.Embed] built for a product with at least one drop. *)
Record embed : Type := Embed {
  em_name : pyval;
  em_url : pyval;
  em_drops : list drop_desc;
  em_hist : option (pyval * pyval)
}.

#[global] Instance embed_eq_dec : EqDecision embed.
Proof. solve_decision. Defined.

Definition em_title (e : embed) : string := "🔔 Price Drop: " +:+ py_str (em_name e).

Definition lf : string := String (Ascii.ascii_of_nat 10) EmptyString.

Definition em_description (e : embed) : string := join lf (map render (em_drops e)).

(** One record of the API answer, [prices[app_id]]: [gd_title] and [gd_url]
    are [None] when the key is missing, [gd_prices] is
    [game_data.get("prices", {})]. *)
Record game_data : Type := GameData {
  gd_title : option pyval;
  gd_url : option pyval;
  gd_prices : pydict
}.

(** ** Comparing one product against a fetched record *)

Section Evaluate.

(** [float(s)]; [None] is [ValueError]. *)
Variable py_float : string → option float.

(** Lines 321-328 and 331-338: one channel's comparison. *)
Definition compare_channel (c : channel) (new_v old_v currency : pyval) : list drop_desc :=
  if truthy new_v && truthy old_v then
    match new_v, old_v with
    | PStr n, PStr o =>
        match py_float n with
        | None => []
        | Some fn =>
            match py_float o with
            | None => []
            | Some fo =>
                if PrimFloat.ltb fn fo
                then [DropDesc c old_v new_v currency]
                else []
            end
        end
    | _, _ => []
    end
  else [].

(** Line 311. *)
Definition new_currency (stored p : pydict) : pyval :=
  py_get_or p "currency" (py_get_or stored "currency" (PStr "USD")).

(** Lines 318-338: the list [alerts]. *)
Definition alerts_of (stored p : pydict) : list drop_desc :=
  let currency := new_currency stored p in
  compare_channel Retail (py_get p "currentRetail") (py_get stored "last_retail") currency
  ++ compare_channel Keyshops (py_get p "currentKeyshops") (py_get stored "last_keyshops") currency.

(** Lines 365-372: the stored entry after the in-place update. *)
Definition update_stored (stored p : pydict) : pydict :=
  let s1 := <["last_retail" := py_get p "currentRetail"]> stored in
  let s2 := <["last_keyshops" := py_get p "currentKeyshops"]> s1 in
  let s3 := <["currency" := new_currency stored p]> s2 in
  let s4 := if truthy (py_get p "historicalRetail")
            then <["historical_retail" := py_get p "historicalRetail"]> s3
            else s3 in
  if truthy (py_get p "historicalKeyshops")
  then <["historical_keyshops" := py_get p "historicalKeyshops"]> s4
  else s4.

(** The evaluation of one tracked product against its fetched prices:
    the drops found and the entry to keep. *)
Definition evaluate (stored p : pydict) : list drop_desc * pydict :=
  (alerts_of stored p, update_stored stored p).

(** Lines 341-358: the embed, built only when [alerts] is not empty.
    [stored["name"]] raises [KeyError] when the entry has no name. *)
Definition make_embed (stored : pydict) (gd : game_data) (alerts : list drop_desc)
  : option embed :=
  match stored !! "name" with
  | None => None
  | Some name =>
      let p := gd_prices gd in
      let hist_retail := py_get_or p "historicalRetail" (py_get stored "historical_retail") in
      Some {| em_name := name;
              em_url := py_get_or stored "url" (default (PStr "") (gd_url gd));
              em_drops := alerts;
              em_hist := if truthy hist_retail
                         then Some (hist_retail, new_currency stored p)
                         else None |}
  end.

End Evaluate.

(** ** The watchlist: an insertion-ordered dictionary *)

Abbreviation odict := (list (string * pydict)).

(** [list(g.keys())] *)
Definition od_keys (g : odict) : list string := g.*1.

(** [g[k]], [None] when [k not in g]. *)
Fixpoint od_get (g : odict) (k : string) : option pydict :=
  match g with
  | [] => None
  | (k', v) :: rest => if decide (k' = k) then Some v else od_get rest k
  end.

(** In-place mutation of the object [g[k]]. *)
Fixpoint od_alter (f : pydict → pydict) (k : string) (g : odict) : odict :=
  match g with
  | [] => []
  | (k', v) :: rest =>
      if decide (k' = k) then (k', f v) :: rest else (k', v) :: od_alter f k rest
  end.

(** [g[k] = v]: an existing key keeps its position, a new one goes last. *)
Fixpoint od_set (k : string) (v : pydict) (g : odict) : odict :=
  match g with
  | [] => [(k, v)]
  | (k', v') :: rest =>
      if decide (k' = k) then (k', v) :: rest else (k', v') :: od_set k v rest
  end.

(** [del g[k]] *)
Fixpoint od_del (k : string) (g : odict) : odict :=
  match g with
  | [] => []
  | (k', v) :: rest =>
      if decide (k' = k) then rest else (k', v) :: od_del k rest
  end.

(** The keys of a Python dict are pairwise distinct. *)
Definition od_wf (g : odict) : Prop := NoDup (od_keys g).

(** The data-model invariant of the file the bot writes: every entry has a
    ["name"]. *)
Definition named (g : odict) : Prop := Forall (λ kv, is_Some (kv.2 !! "name")) g.

(** ** Exceptions, results, events *)

Inductive exn : Type :=
  | KeyError (k : string)
  | HTTPError (status : nat)
  | JSONError.

Inductive result (A : Type) : Type :=
  | Ok (a : A)
  | Raise (e : exn).
Arguments Ok {A} a.
Arguments Raise {A} e.

(** What a command answers on the channel it was typed in. *)
Inductive reply : Type :=
  | AlreadyWatched (name : pyval)
  | NotFound (steam_app_id : string)
  | NowWatching (entry : pydict)
  | NotWatched (steam_app_id : string)
  | Removed (name : pyval).

Inductive event : Type :=
  | EFetch (app_ids : list string)          (* session.get(GG_DEALS_PRICES_URL, ids) *)
  | ESend (app_id : string) (e : embed)     (* channel.send(embed), logged with app_id *)
  | ESleep (seconds : nat)                  (* asyncio.sleep *)
  | ESave (g : odict)                       (* save_data *)
  | EReply (r : reply).                     (* ctx.send *)

(** What one run of a command or of the task did: the events in order, the
    content of the data file afterwards ([None]: no file) and the exception
    that ended it, if one did. *)
Record run : Type := Run {
  r_events : list event;
  r_disk : option odict;
  r_exn : option exn
}.

(** [load_data]: the ["games"] dictionary of the file, empty without file. *)
Definition load_data (disk : option odict) : odict := default [] disk.

(** ** The price query *)

(** The decoded body, [None] when [resp.json()] raises. *)
Record api_body : Type := ApiBody {
  success : bool;                                  (* body.get("success") is true *)
  data : option (gmap string game_data)            (* body["data"], if present *)
}.

Record http_resp : Type := HttpResp {
  status : nat;
  body : option api_body
}.

Section Bot.

Variable py_float : string → option float.

(** The answer of the network to the request for these ids. *)
Variable http_get : list string → http_resp.

(** [fetch_prices] *)
Definition fetch_prices (app_ids : list string)
  : list event * result (gmap string game_data) :=
  match app_ids with
  | [] => ([], Ok ∅)
  | _ =>
      let resp := http_get app_ids in
      ([EFetch app_ids],
       if status resp =? 429 then Ok ∅
       else if 400 <=? status resp then Raise (HTTPError (status resp))
       else match body resp with
            | None => Raise JSONError
            | Some b => if success b then Ok (default ∅ (data b)) else Ok ∅
            end)
  end.

(** ** The background task *)

(** Lines 305-372: the body of [for app_id in batch]. *)
Definition check_game (prices : gmap string game_data) (app_id : string) (games : odict)
  : list event * result odict :=
  match prices !! app_id with
  | None => ([], Ok games)
  | Some gd =>
      match od_get games app_id with
      | None => ([], Raise (KeyError app_id))
      | Some stored =>
          let p := gd_prices gd in
          let '(alerts, updated) := evaluate py_float stored p in
          match alerts with
          | [] => ([], Ok (od_alter (λ _, updated) app_id games))
          | _ :: _ =>
              match make_embed stored gd alerts with
              | None => ([], Raise (KeyError "name"))
              | Some e => ([ESend app_id e], Ok (od_alter (λ _, updated) app_id games))
              end
          end
      end
  end.

(** Lines 304-372: [for app_id in batch]. *)
Fixpoint for_games (prices : gmap string game_data) (batch : list string) (games : odict)
  : list event * result odict :=
  match batch with
  | [] => ([], Ok games)
  | app_id :: rest =>
      match check_game prices app_id games with
      | (ev, Raise e) => (ev, Raise e)
      | (ev, Ok games') =>
          let '(ev', r) := for_games prices rest games' in (ev ++ ev', r)
      end
  end.

(** Lines 301-376: one iteration of [for i in range(0, len(app_ids), 100)]. *)
Definition do_batch (app_ids : list string) (i : nat) (games : odict)
  : list event * result odict :=
  let batch := take 100 (drop i app_ids) in
  match fetch_prices batch with
  | (ev, Raise e) => (ev, Raise e)
  | (ev, Ok prices) =>
      match for_games prices batch games with
      | (ev', Raise e) => (ev ++ ev', Raise e)
      | (ev', Ok games') =>
          (ev ++ ev' ++ (if i + 100 <? length app_ids then [ESleep 2] else []),
           Ok games')
      end
  end.

(** [range(start, stop, step)] for a positive step. *)
Fixpoint range_from (fuel i stop step : nat) : list nat :=
  match fuel with
  | O => []
  | S fuel' => if i <? stop then i :: range_from fuel' (i + step) stop step else []
  end.

Definition py_range (start stop step : nat) : list nat :=
  range_from stop start stop step.

(** Lines 300-376: the loop over the batch offsets. *)
Fixpoint for_batches (app_ids : list string) (offsets : list nat) (games : odict)
  : list event * result odict :=
  match offsets with
  | [] => ([], Ok games)
  | i :: rest =>
      match do_batch app_ids i games with
      | (ev, Raise e) => (ev, Raise e)
      | (ev, Ok games') =>
          let '(ev', r) := for_batches app_ids rest games' in (ev ++ ev', r)
      end
  end.

(** [price_checker]: one cycle.  [channel] tells whether
    [bot.get_channel(CHANNEL_ID)] found the channel. *)
Definition price_checker (channel : bool) (disk : option odict) : run :=
  let games := load_data disk in
  match games with
  | [] => Run [] disk None
  | _ :: _ =>
      let app_ids := od_keys games in
      if negb channel then Run [] disk None
      else
        match for_batches app_ids (py_range 0 (length app_ids) 100) games with
        | (ev, Raise e) => Run ev disk (Some e)
        | (ev, Ok games') => Run (ev ++ [ESave games']) (Some games') None
        end
  end.

(** ** Commands *)

(** Lines 152-161: the entry of a newly watched game. *)
Definition new_entry (steam_app_id game_name author : string) (gd : game_data) : pydict :=
  let price_info := gd_prices gd in
  let title := default (py_or (PStr game_name) (PStr steam_app_id)) (gd_title gd) in
  <["added_by" := PStr author]>
  (<["url" := default (PStr ("https://gg.deals/steam/app/" +:+ steam_app_id +:+ "/"))
                      (gd_url gd)]>
  (<["currency" := py_get_or price_info "currency" (PStr "USD")]>
  (<["historical_keyshops" := py_get price_info "historicalKeyshops"]>
  (<["historical_retail" := py_get price_info "historicalRetail"]>
  (<["last_keyshops" := py_get price_info "currentKeyshops"]>
  (<["last_retail" := py_get price_info "currentRetail"]>
  (<["name" := title]> ∅))))))).

(** [!watch <steam_app_id> [game name]] typed by [author]. *)
Definition watch_game (author steam_app_id game_name : string) (disk : option odict) : run :=
  let games := load_data disk in
  match od_get games steam_app_id with
  | Some stored =>
      match stored !! "name" with
      | None => Run [] disk (Some (KeyError "name"))
      | Some name => Run [EReply (AlreadyWatched name)] disk None
      end
  | None =>
      match fetch_prices [steam_app_id] with
      | (ev, Raise e) => Run ev disk (Some e)
      | (ev, Ok prices) =>
          match prices !! steam_app_id with
          | None => Run (ev ++ [EReply (NotFound steam_app_id)]) disk None
          | Some gd =>
              let entry := new_entry steam_app_id game_name author gd in
              let games' := od_set steam_app_id entry games in
              Run (ev ++ [ESave games'; EReply (NowWatching entry)]) (Some games') None
          end
      end
  end.

(** [!unwatch <steam_app_id>] *)
Definition unwatch_game (steam_app_id : string) (disk : option odict) : run :=
  let games := load_data disk in
  match od_get games steam_app_id with
  | None => Run [EReply (NotWatched steam_app_id)] disk None
  | Some stored =>
      match stored !! "name" with
      | None => Run [] disk (Some (KeyError "name"))
      | Some name =>
          let games' := od_del steam_app_id games in
          Run [ESave games'; EReply (Removed name)] (Some games') None
      end
  end.

End Bot.

(** ** The cycle, batch by batch

    The loop over offsets visits the keys in consecutive slices of at most
    100: [chunks] lists the slices, [run_batches] is the loop over them,
    shown below to be the loop of [price_checker]. *)

Section Batches.

Variable py_float : string → option float.
Variable http_get : list string → http_resp.

(** The embed [check_game] sends for an entry [stored] whose fetched record
    is [gd]: none without drop. *)
Definition game_alert (stored : pydict) (gd : game_data) : list embed :=
  match alerts_of py_float stored (gd_prices gd) with
  | [] => []
  | (_ :: _) as alerts =>
      match make_embed stored gd alerts with
      | None => []
      | Some e => [e]
      end
  end.

Fixpoint chunks (fuel : nat) (l : list string) : list (list string) :=
  match fuel with
  | O => []
  | S fuel' =>
      match l with
      | [] => []
      | _ :: _ => take 100 l :: chunks fuel' (drop 100 l)
      end
  end.

Definition batches_of (app_ids : list string) : list (list string) :=
  chunks (length app_ids) app_ids.

Fixpoint run_batches (bs : list (list string)) (g : odict) : list event * result odict :=
  match bs with
  | [] => ([], Ok g)
  | b :: rest =>
      match fetch_prices http_get b with
      | (ev, Raise e) => (ev, Raise e)
      | (ev, Ok prices) =>
          match for_games py_float prices b g with
          | (ev', Raise e) => (ev ++ ev', Raise e)
          | (ev', Ok g1) =>
              let '(ev'', r) := run_batches rest g1 in
              ((ev ++ ev' ++ (if rest is [] then [] else [ESleep 2])) ++ ev'', r)
          end
      end
  end.

End Batches.

(** The invariants of a data file: what [load_data] reads from it has
    distinct keys and names every entry. *)
Definition file_ok (disk : option odict) : Prop :=
  od_wf (load_data disk) ∧ named (load_data disk).

(** ** The commands that only read *)

(** One field of the [!watchlist] embed: the values its two f-strings
    interpolate. *)
Record wl_field : Type := WlField {
  f_app_id : string;
  f_name : pyval;
  f_retail : pyval;
  f_keyshops : pyval;
  f_currency : pyval;
  f_url : pyval
}.

Definition field_name (f : wl_field) : string :=
  py_str (f_name f) +:+ " (ID: " +:+ f_app_id f +:+ ")".

Definition field_value (f : wl_field) : string :=
  "Retail: **" +:+ py_str (f_retail f) +:+ " " +:+ py_str (f_currency f)
    +:+ "** | Keyshops: **" +:+ py_str (f_keyshops f) +:+ " " +:+ py_str (f_currency f)
    +:+ "**" +:+ lf +:+ "[View on GG.deals](" +:+ py_str (f_url f) +:+ ")".

Inductive watchlist_reply : Type :=
  | EmptyWatchlist
  | WatchlistEmbed (fields : list wl_field).

(** Lines 213-220: the field of one game.  [info['name']] raises
    [KeyError] when the entry has no name. *)
Definition watchlist_field (app_id : string) (info : pydict) : result wl_field :=
  match info !! "name" with
  | None => Raise (KeyError "name")
  | Some name =>
      Ok {| f_app_id := app_id;
            f_name := name;
            f_retail := py_get_or info "last_retail" (PStr "N/A");
            f_keyshops := py_get_or info "last_keyshops" (PStr "N/A");
            f_currency := py_get_or info "currency" (PStr "USD");
            f_url := py_get_or info "url" (PStr "") |}
  end.

(** Lines 212-220: [for app_id, info in data["games"].items()]. *)
Fixpoint watchlist_fields (g : odict) : result (list wl_field) :=
  match g with
  | [] => Ok []
  | (app_id, info) :: rest =>
      match watchlist_field app_id info with
      | Raise e => Raise e
      | Ok f =>
          match watchlist_fields rest with
          | Raise e => Raise e
          | Ok fs => Ok (f :: fs)
          end
      end
  end.

(** [!watchlist]: what is sent back, or the exception raised before
    anything is sent. *)
Definition show_watchlist (disk : option odict) : result watchlist_reply :=
  match load_data disk with
  | [] => Ok EmptyWatchlist
  | (_ :: _) as games =>
      match watchlist_fields games with
      | Raise e => Raise e
      | Ok fs => Ok (WatchlistEmbed fs)
      end
  end.

(** The embed of [!price]. *)
Record price_embed : Type := PriceEmbed {
  pe_title : pyval;
  pe_url : pyval;
  pe_currency : pyval;
  pe_retail : pyval;
  pe_keyshops : pyval;
  pe_hist_retail : pyval;
  pe_hist_keyshops : pyval
}.

Inductive price_reply : Type :=
  | PriceNotFound (steam_app_id : string)
  | PriceFound (e : price_embed).

Section CheckPrice.

Variable http_get : list string → http_resp.

(** [!price <steam_app_id>]: the requests made and what is sent back. *)
Definition check_price (steam_app_id : string) : list event * result price_reply :=
  match fetch_prices http_get [steam_app_id] with
  | (ev, Raise e) => (ev, Raise e)
  | (ev, Ok prices) =>
      match prices !! steam_app_id with
      | None => (ev, Ok (PriceNotFound steam_app_id))
      | Some gd =>
          let p := gd_prices gd in
          (ev, Ok (PriceFound
             {| pe_title := default (PStr steam_app_id) (gd_title gd);
                pe_url := default (PStr ("https://gg.deals/steam/app/" +:+ steam_app_id
                                         +:+ "/")) (gd_url gd);
                pe_currency := py_get_or p "currency" (PStr "USD");
                pe_retail := py_get_or p "currentRetail" (PStr "N/A");
                pe_keyshops := py_get_or p "currentKeyshops" (PStr "N/A");
                pe_hist_retail := py_get_or p "historicalRetail" (PStr "N/A");
                pe_hist_keyshops := py_get_or p "historicalKeyshops" (PStr "N/A") |}))
      end
  end.

End CheckPrice.

(** ** Vocabulary of the statements *)

(** The key of a channel's current price in the API record, and of its last
    known price and historical low in a stored entry. *)
Definition current_key (c : channel) : string :=
  match c with Retail => "currentRetail" | Keyshops => "currentKeyshops" end.

Definition last_key (c : channel) : string :=
  match c with Retail => "last_retail" | Keyshops => "last_keyshops" end.

Definition fetched_hist_key (c : channel) : string :=
  match c with Retail => "historicalRetail" | Keyshops => "historicalKeyshops" end.

Definition hist_key (c : channel) : string :=
  match c with Retail => "historical_retail" | Keyshops => "historical_keyshops" end.

Definition other (c : channel) : channel :=
  match c with Retail => Keyshops | Keyshops => Retail end.

(** The drop descriptions of one channel among [alerts]. *)
Definition drops_for (c : channel) (alerts : list drop_desc) : list drop_desc :=
  filter (λ d, d_channel d = c) alerts.

(** The product keys of the alerts sent, in the order sent. *)
Definition send_key (e : event) : option string :=
  match e with ESend k _ => Some k | _ => None end.

Definition alert_keys (evs : list event) : list string := omap send_key evs.

(** The embeds sent for product [k]. *)
Definition alert_for (k : string) (e : event) : option embed :=
  match e with
  | ESend k' em => if decide (k' = k) then Some em else None
  | _ => None
  end.

Definition alerts_for (k : string) (evs : list event) : list embed :=
  omap (alert_for k) evs.

(** The traffic with the price source: requests and pauses, in order. *)
Inductive net_event : Type :=
  | Request (app_ids : list string)
  | Pause (seconds : nat).

Definition net_of (e : event) : option net_event :=
  match e with
  | EFetch ids => Some (Request ids)
  | ESleep n => Some (Pause n)
  | _ => None
  end.

Definition network (evs : list event) : list net_event := omap net_of evs.

(** The snapshots written to the data file, in order. *)
Definition save_of (e : event) : option odict :=
  match e with ESave g => Some g | _ => None end.

Definition saved (evs : list event) : list odict := omap save_of evs.

(** [sep] put between consecutive elements, and nowhere else. *)
Fixpoint sep_by {A : Type} (sep : A) (l : list A) : list A :=
  match l with
  | [] => []
  | x :: rest =>
      match rest with
      | [] => [x]
      | _ :: _ => x :: sep :: sep_by sep rest
      end
  end.

(** Every alert of the trace is sent after a save: the order of dispatch
    the specification describes. *)
Definition sends_follow_save (evs : list event) : Prop :=
  ∀ i k em, evs !! i = Some (ESend k em) →
    ∃ j g, j < i ∧ evs !! j = Some (ESave g).

(** A drop description that reports a real drop of the entry [stored]
    against the record [p]: in its channel the stored last price and the
    fetched current price are strings [float] accepts, the fetched number is
    below the stored one, and the description quotes these two strings and
    the currency of the evaluation. *)
Definition real_drop (py_float : string → option float) (stored p : pydict)
    (d : drop_desc) : Prop :=
  ∃ n o fn fo,
    py_get p (current_key (d_channel d)) = PStr n
    ∧ py_get stored (last_key (d_channel d)) = PStr o
    ∧ py_float n = Some fn ∧ py_float o = Some fo
    ∧ PrimFloat.ltb fn fo = true
    ∧ d = DropDesc (d_channel d) (PStr o) (PStr n) (new_currency stored p).

(** The embed [e] is the one built from the drops of the entry [stored]
    against the record [gd], and there is such a drop. *)
Definition alert_from (py_float : string → option float)
    (stored : pydict) (gd : game_data) (e : embed) : Prop :=
  alerts_of py_float stored (gd_prices gd) ≠ []
  ∧ make_embed stored gd (alerts_of py_float stored (gd_prices gd)) = Some e.

(** The price source answers every request from one table [source]: a key
    of the request has the table's record in the answer, or none. *)
Definition answers_from (http_get : list string → http_resp)
    (source : string → option game_data) : Prop :=
  ∀ b prices k, k ∈ b →
    (fetch_prices http_get b).2 = Ok prices → prices !! k = source k.

(** A watchlist on which the table [source] shows no drop: every entry
    whose key has a record is level with it or below. *)
Definition settled (py_float : string → option float)
    (source : string → option game_data) (g : odict) : Prop :=
  ∀ k stored gd, od_get g k = Some stored → source k = Some gd →
    alerts_of py_float stored (gd_prices gd) = [].

(** An answer of the source without data: rate limited, or a decoded body
    that does not report success. *)
Definition no_data_answer (resp : http_resp) : Prop :=
  status resp = 429
  ∨ (status resp < 400 ∧ ∃ bd, body resp = Some bd ∧ success bd = false).

(** The requests among the traffic with the source, and the pauses. *)
Definition request_of (n : net_event) : option (list string) :=
  match n with Request ids => Some ids | Pause _ => None end.

Definition pause_of (n : net_event) : option nat :=
  match n with Pause secs => Some secs | Request _ => None end.

Definition requests (evs : list event) : list (list string) :=
  omap request_of (network evs).

Definition pauses (evs : list event) : list nat := omap pause_of (network evs).

(** The field [!watchlist] shows for an entry. *)
Definition field_of (app_id : string) (info : pydict) (name : pyval) : wl_field :=
  {| f_app_id := app_id;
     f_name := name;
     f_retail := py_get_or info "last_retail" (PStr "N/A");
     f_keyshops := py_get_or info "last_keyshops" (PStr "N/A");
     f_currency := py_get_or info "currency" (PStr "USD");
     f_url := py_get_or info "url" (PStr "") |}.

(** ** A reference parser for plain decimals

    [decimal_float] reads digits with at most one point ("9.99", "10",
    ".5") as [float] does when the digits are few enough for the quotient
    to be rounded once; anything else is refused.  It instantiates
    [py_float] in the examples. *)

Definition digit_of (a : ascii) : option Z :=
  let n := Z.of_nat (nat_of_ascii a) in
  if ((48 <=? n) && (n <=? 57))%Z then Some (n - 48)%Z else None.

Fixpoint scan_decimal (s : string) (point : bool) (digits : nat) (mant : Z) (scale : Z)
  : option (Z * Z) :=
  match s with
  | EmptyString => if digits is O then None else Some (mant, scale)
  | String a rest =>
      if Ascii.eqb a "."%char then
        if point then None else scan_decimal rest true digits mant scale
      else
        match digit_of a with
        | None => None
        | Some d =>
            scan_decimal rest point (S digits) (10 * mant + d)%Z
              (if point then scale + 1 else scale)%Z
        end
  end.

Definition decimal_float (s : string) : option float :=
  match scan_decimal s false 0 0%Z 0%Z with
  | None => None
  | Some (mant, scale) =>
      Some (PrimFloat.div (PrimFloat.of_uint63 (Uint63.of_Z mant))
                          (PrimFloat.of_uint63 (Uint63.of_Z (10 ^ scale))))
  end.

(** A network that knows no product. *)
Definition no_data : list string → http_resp :=
  λ _, HttpResp 200 (Some (ApiBody true (Some ∅))).

(** ** Sample data *)

(** An entry as [!watch] writes it, and three API price records for it: a
    lower retail price, no retail offer at all, and both channels lower. *)
Definition hl2_stored : pydict :=
  <["name" := PStr "Half-Life 2"]>
  (<["last_retail" := PStr "9.99"]>
  (<["last_keyshops" := PStr "4.50"]>
  (<["historical_retail" := PStr "0.99"]>
  (<["currency" := PStr "USD"]>
  (<["url" := PStr "https://gg.deals/game/half-life-2/"]> ∅))))).

Definition hl2_retail_drop : pydict :=
  <["currentRetail" := PStr "4.99"]>
  (<["currentKeyshops" := PStr "4.50"]>
  (<["historicalRetail" := PStr "0.99"]>
  (<["currency" := PStr "USD"]> ∅))).

Definition hl2_no_retail : pydict :=
  <["currentRetail" := PNone]>
  (<["currentKeyshops" := PStr "4.50"]>
  (<["historicalRetail" := PStr "0.99"]>
  (<["currency" := PStr "USD"]> ∅))).

Definition hl2_both_drop : pydict :=
  <["currentRetail" := PStr "4.99"]>
  (<["currentKeyshops" := PStr "3.10"]>
  (<["currency" := PStr "USD"]> ∅)).

Definition hl2_malformed : pydict :=
  <["currentRetail" := PStr "free"]>
  (<["currentKeyshops" := PStr "3.10"]>
  (<["currency" := PStr "USD"]> ∅)).

Definition portal_stored : pydict :=
  <["name" := PStr "Portal"]>
  (<["last_retail" := PStr "9.99"]>
  (<["last_keyshops" := PStr "2.00"]>
  (<["currency" := PStr "USD"]> ∅))).

(** A watchlist of one game and one of two. *)
Definition hl2_games : odict := [("220", hl2_stored)].

Definition two_games : odict := [("220", hl2_stored); ("400", portal_stored)].

(** A network that answers every request with one record for "220". *)
Definition net_with (p : pydict) : list string → http_resp :=
  λ _, HttpResp 200 (Some (ApiBody true (Some
         {["220" := GameData (Some (PStr "Half-Life 2")) None p]}))).

(** A watchlist of 150 games, with keys "10000" to "10149". *)
Definition digit_char (n : nat) : ascii := ascii_of_nat (48 + n mod 10).

Definition app_id_of (i : nat) : string :=
  "10" +:+ String (digit_char (i / 100))
             (String (digit_char (i / 10)) (String (digit_char i) EmptyString)).

Definition games_150 : odict := (λ i, (app_id_of i, portal_stored)) <$> seq 0 150.

(** A source that limits the rate of every request, and one that fails. *)
Definition net_429 : list string → http_resp := λ _, HttpResp 429 None.

Definition net_500 : list string → http_resp := λ _, HttpResp 500 None.

(** The table behind [net_with p]. *)
Definition table_with (p : pydict) : string → option game_data :=
  λ k, if decide (k = "220")
       then Some (GameData (Some (PStr "Half-Life 2")) None p) else None.

(** ** Properties of the comparison *)

(** *** Order of binary64 numbers *)

Lemma SFcompare_swap (x y : spec_float) :
  SFcompare y x = CompOpp <$> SFcompare x y.
Proof.
  destruct x as [sx|sx| |sx mx ex], y as [sy|sy| |sy my ey]; simpl;
    try reflexivity;
    try (destruct sx; reflexivity); try (destruct sy; reflexivity);
    try (destruct sx, sy; reflexivity).
  destruct sx, sy; simpl; try reflexivity.
  - rewrite (Z.compare_antisym ex ey).
    destruct (ex ?= ey)%Z; simpl; try reflexivity.
    by rewrite (Pos.compare_cont_antisym mx my Eq).
  - rewrite (Z.compare_antisym ex ey).
    destruct (ex ?= ey)%Z; simpl; try reflexivity.
    by rewrite (Pos.compare_cont_antisym mx my Eq).
Qed.

Lemma ltb_irrefl (x : float) : PrimFloat.ltb x x = false.
Proof.
  rewrite ltb_spec. unfold SFltb.
  pose proof (SFcompare_swap (Prim2SF x) (Prim2SF x)) as H.
  destruct (SFcompare (Prim2SF x) (Prim2SF x)) as [[]|]; simpl in H; congruence.
Qed.

Lemma leb_ltb_false (x y : float) :
  PrimFloat.leb x y = true → PrimFloat.ltb y x = false.
Proof.
  rewrite leb_spec, ltb_spec. unfold SFleb, SFltb.
  rewrite (SFcompare_swap (Prim2SF x) (Prim2SF y)).
  destruct (SFcompare (Prim2SF x) (Prim2SF y)) as [[]|]; simpl; congruence.
Qed.

(** *** Dictionaries *)

Lemma py_get_lookup (d : pydict) (k : string) (v : pyval) :
  d !! k = Some v → py_get d k = v.
Proof. unfold py_get. by intros ->. Qed.

Lemma truthy_PStr (v : pyval) : truthy v = true → ∃ s, v = PStr s ∧ s ≠ "".
Proof.
  destruct v as [|s]; simpl; [done|]. intros H. exists s. split; [done|].
  intros ->. done.
Qed.

Lemma truthy_empty : truthy (PStr "") = false.
Proof. reflexivity. Qed.

(** *** The updated entry *)

Lemma update_stored_last (stored p : pydict) (c : channel) :
  update_stored stored p !! last_key c = Some (py_get p (current_key c)).
Proof.
  unfold update_stored.
  destruct (truthy (py_get p "historicalRetail")),
           (truthy (py_get p "historicalKeyshops")), c; simpl;
    by simplify_map_eq.
Qed.

Lemma update_stored_hist (stored p : pydict) (c : channel) :
  update_stored stored p !! hist_key c =
    if truthy (py_get p (fetched_hist_key c))
    then Some (py_get p (fetched_hist_key c))
    else stored !! hist_key c.
Proof.
  unfold update_stored. destruct c; simpl;
    destruct (truthy (py_get p "historicalRetail")),
             (truthy (py_get p "historicalKeyshops"));
    by simplify_map_eq.
Qed.

Lemma update_stored_currency (stored p : pydict) :
  update_stored stored p !! "currency" = Some (new_currency stored p).
Proof.
  unfold update_stored.
  destruct (truthy (py_get p "historicalRetail")),
           (truthy (py_get p "historicalKeyshops")); simpl;
    by simplify_map_eq.
Qed.

(** The update writes five keys and no other. *)
Lemma update_stored_frame (stored p : pydict) (k : string) :
  k ∉ ["last_retail"; "last_keyshops"; "currency";
       "historical_retail"; "historical_keyshops"] →
  update_stored stored p !! k = stored !! k.
Proof.
  intros Hk. unfold update_stored.
  rewrite !not_elem_of_cons in Hk. destruct Hk as (?&?&?&?&?&_).
  destruct (truthy (py_get p "historicalRetail")),
           (truthy (py_get p "historicalKeyshops")); simpl;
    by simplify_map_eq.
Qed.

Lemma update_stored_named (stored p : pydict) :
  is_Some (stored !! "name") → is_Some (update_stored stored p !! "name").
Proof.
  intros H. rewrite update_stored_frame; [done|].
  rewrite !not_elem_of_cons. repeat split; (done || apply not_elem_of_nil).
Qed.

(** *** One channel's comparison *)

Lemma drops_for_app (c : channel) (l1 l2 : list drop_desc) :
  drops_for c (l1 ++ l2) = drops_for c l1 ++ drops_for c l2.
Proof. apply filter_app. Qed.

Section CompareFacts.

Variable py_float : string → option float.

Lemma compare_channel_tag c n o cur d :
  d ∈ compare_channel py_float c n o cur → d_channel d = c.
Proof.
  unfold compare_channel.
  repeat case_match; intros Hd; try (by apply elem_of_nil in Hd).
  apply list_elem_of_singleton in Hd. by subst.
Qed.

Lemma drops_for_compare_same c n o cur :
  drops_for c (compare_channel py_float c n o cur) = compare_channel py_float c n o cur.
Proof.
  unfold drops_for, compare_channel. repeat case_match; try done.
  by rewrite filter_cons_True.
Qed.

Lemma drops_for_compare_other c c' n o cur :
  c ≠ c' → drops_for c (compare_channel py_float c' n o cur) = [].
Proof.
  intros Hne. unfold drops_for, compare_channel. repeat case_match; try done.
  by rewrite filter_cons_False by (simpl; congruence).
Qed.

Lemma alerts_of_channel (stored p : pydict) (c : channel) :
  drops_for c (alerts_of py_float stored p) =
    compare_channel py_float c (py_get p (current_key c)) (py_get stored (last_key c))
      (new_currency stored p).
Proof.
  unfold alerts_of. rewrite drops_for_app.
  destruct c; cbn [current_key last_key].
  - rewrite drops_for_compare_same, drops_for_compare_other by done.
    by rewrite app_nil_r.
  - by rewrite drops_for_compare_other, drops_for_compare_same by done.
Qed.

Lemma compare_channel_same_value c v cur :
  compare_channel py_float c v v cur = [].
Proof.
  unfold compare_channel. destruct (truthy v); simpl; [|done].
  destruct v as [|s]; [done|].
  destruct (py_float s) as [f|]; [|done].
  by rewrite ltb_irrefl.
Qed.

Lemma compare_channel_malformed c n o cur s :
  n = PStr s ∨ o = PStr s → py_float s = None →
  compare_channel py_float c n o cur = [].
Proof.
  intros Hs Hf. unfold compare_channel.
  destruct (truthy n && truthy o); [|done].
  destruct n as [|n], o as [|o]; try done.
  destruct Hs as [[= ->]|[= ->]]; rewrite ?Hf; [done|].
  by destruct (py_float n).
Qed.

End CompareFacts.

(** ** The evaluation of one product *)

Section EvaluateProperties.

Variable py_float : string → option float.

(** C1 (as amended).  The entry kept after an evaluation holds, for each
    channel, the fetched current price as last known price whatever it
    is, [null] included; its historical low is the fetched one when that
    is neither [null] nor empty and the stored one otherwise. *)
Theorem evaluate_advances_baseline (stored p : pydict) (c : channel) :
  let updated := (evaluate py_float stored p).2 in
  updated !! last_key c = Some (py_get p (current_key c))
  ∧ updated !! hist_key c =
      (if truthy (py_get p (fetched_hist_key c))
       then Some (py_get p (fetched_hist_key c))
       else stored !! hist_key c).
Proof.
  simpl. split; [apply update_stored_last | apply update_stored_hist].
Qed.

(** C2.  When a channel's stored and fetched prices are both strings that
    [float] accepts, the evaluation yields exactly one drop description
    for the channel if the new number is below the old one, and none if
    it is equal or above. *)
Theorem drop_iff_strictly_lower
    (stored p : pydict) (c : channel) (n o : string) (fn fo : float) :
  py_float "" = None →
  py_get p (current_key c) = PStr n →
  py_get stored (last_key c) = PStr o →
  py_float n = Some fn →
  py_float o = Some fo →
  let alerts := (evaluate py_float stored p).1 in
  (PrimFloat.ltb fn fo = true →
     drops_for c alerts = [DropDesc c (PStr o) (PStr n) (new_currency stored p)])
  ∧ (PrimFloat.leb fo fn = true → drops_for c alerts = []).
Proof.
  intros Hempty Hn Ho Hfn Hfo. simpl.
  rewrite alerts_of_channel, Hn, Ho. unfold compare_channel.
  assert (truthy (PStr n) = true) as ->.
  { simpl. destruct (String.eqb_spec n ""); [congruence | done]. }
  assert (truthy (PStr o) = true) as ->.
  { simpl. destruct (String.eqb_spec o ""); [congruence | done]. }
  simpl. rewrite Hfn, Hfo. split.
  - by intros ->.
  - by intros ->%leb_ltb_false.
Qed.

(** C3.  Evaluating the same fetched record again, against the entry the
    first evaluation kept, finds no drop. *)
Theorem evaluate_idempotent (stored p : pydict) :
  (evaluate py_float (evaluate py_float stored p).2 p).1 = [].
Proof.
  pose proof (py_get_lookup _ _ _ (update_stored_last stored p Retail)) as Hr.
  pose proof (py_get_lookup _ _ _ (update_stored_last stored p Keyshops)) as Hk.
  cbn [last_key current_key] in Hr, Hk.
  cbn [evaluate fst snd]. unfold alerts_of. rewrite Hr, Hk.
  by rewrite !compare_channel_same_value.
Qed.

End EvaluateProperties.

(** C1, as the specification words it, fails for a current price: a record
    without retail offer erases the stored retail price. *)
Lemma null_price_erases_baseline :
  py_get hl2_no_retail (current_key Retail) = PNone
  ∧ hl2_stored !! last_key Retail = Some (PStr "9.99")
  ∧ (evaluate decimal_float hl2_stored hl2_no_retail).2 !! last_key Retail = Some PNone
  ∧ ¬ (py_get hl2_no_retail (current_key Retail) = PNone →
       (evaluate decimal_float hl2_stored hl2_no_retail).2 !! last_key Retail
       = hl2_stored !! last_key Retail).
Proof.
  assert ((evaluate decimal_float hl2_stored hl2_no_retail).2 !! last_key Retail
          = Some PNone) as Hu by (vm_compute; reflexivity).
  split; [reflexivity|]. split; [reflexivity|]. split; [exact Hu|].
  intros H. rewrite Hu in H. specialize (H eq_refl). discriminate H.
Qed.

Lemma drop_iff_strictly_lower_witness :
  drops_for Retail (evaluate decimal_float hl2_stored hl2_retail_drop).1
  = [DropDesc Retail (PStr "9.99") (PStr "4.99") (PStr "USD")].
Proof.
  refine (proj1 (drop_iff_strictly_lower decimal_float hl2_stored hl2_retail_drop
                   Retail "4.99" "9.99" _ _ eq_refl eq_refl eq_refl eq_refl eq_refl)
            eq_refl).
Defined.

(** ** The ordered dictionary *)

Lemma od_get_None (g : odict) (k : string) : od_get g k = None ↔ k ∉ od_keys g.
Proof.
  unfold od_keys. induction g as [|[k' v] g IH]; simpl.
  - split; [intros _; apply not_elem_of_nil | done].
  - rewrite not_elem_of_cons. destruct (decide (k' = k)) as [->|Hne].
    + split; [done | by intros [? _]].
    + rewrite IH. split; [by intros ? | by intros [_ ?]].
Qed.

Lemma od_get_Some_keys (g : odict) (k : string) (v : pydict) :
  od_get g k = Some v → k ∈ od_keys g.
Proof.
  intros H. destruct (decide (k ∈ od_keys g)) as [|Hn]; [done|].
  apply od_get_None in Hn. congruence.
Qed.

Lemma od_keys_alter (f : pydict → pydict) (k : string) (g : odict) :
  od_keys (od_alter f k g) = od_keys g.
Proof.
  unfold od_keys. induction g as [|[k' v] g IH]; csimpl; [done|].
  destruct (decide (k' = k)); csimpl; [done | by rewrite IH].
Qed.

Lemma od_get_alter_eq (f : pydict → pydict) (k : string) (g : odict) :
  od_get (od_alter f k g) k = f <$> od_get g k.
Proof.
  induction g as [|[k' v] g IH]; simpl; [done|].
  destruct (decide (k' = k)) as [->|Hne]; simpl.
  - by rewrite decide_True.
  - by rewrite decide_False.
Qed.

Lemma od_get_alter_ne (f : pydict → pydict) (k k' : string) (g : odict) :
  k ≠ k' → od_get (od_alter f k g) k' = od_get g k'.
Proof.
  intros Hne. induction g as [|[k0 v] g IH]; simpl; [done|].
  destruct (decide (k0 = k)) as [->|Hne0]; simpl.
  - by rewrite !decide_False.
  - destruct (decide (k0 = k')); [done | apply IH].
Qed.

Lemma od_get_del_ne (k k' : string) (g : odict) :
  k ≠ k' → od_get (od_del k g) k' = od_get g k'.
Proof.
  intros Hne. induction g as [|[k0 v] g IH]; simpl; [done|].
  destruct (decide (k0 = k)) as [->|Hne0]; simpl.
  - by rewrite decide_False.
  - destruct (decide (k0 = k')); [done | apply IH].
Qed.

Lemma od_keys_del_fresh (k : string) (g : odict) :
  k ∉ od_keys g → od_del k g = g.
Proof.
  unfold od_keys. induction g as [|[k0 v] g IH]; simpl; [done|].
  rewrite not_elem_of_cons. intros [Hne Hk].
  rewrite decide_False by done. by rewrite IH.
Qed.

Lemma od_get_del_eq (k : string) (g : odict) :
  od_wf g → od_get (od_del k g) k = None.
Proof.
  unfold od_wf, od_keys. induction g as [|[k0 v] g IH]; simpl; [done|].
  intros [Hk0 Hnd]%NoDup_cons.
  destruct (decide (k0 = k)) as [->|Hne]; simpl.
  - by apply od_get_None.
  - rewrite decide_False by done. by apply IH.
Qed.

Lemma od_keys_del (k : string) (g : odict) :
  od_wf g → od_keys (od_del k g) = filter (λ k', k' ≠ k) (od_keys g).
Proof.
  unfold od_wf, od_keys. induction g as [|[k0 v] g IH]; simpl; [done|].
  intros [Hk0 Hnd]%NoDup_cons.
  destruct (decide (k0 = k)) as [->|Hne]; simpl.
  - rewrite filter_cons_False by (intros ?; done).
    clear IH Hnd. induction g as [|[k1 v1] g IH]; simpl; [done|].
    simpl in Hk0. rewrite not_elem_of_cons in Hk0. destruct Hk0 as [Hne Hk0].
    rewrite filter_cons_True by done. f_equal. by apply IH.
  - rewrite filter_cons_True by done. simpl. f_equal. by apply IH.
Qed.

Lemma od_wf_del (k : string) (g : odict) : od_wf g → od_wf (od_del k g).
Proof.
  intros Hwf. unfold od_wf. rewrite od_keys_del by done.
  by apply NoDup_filter.
Qed.

Lemma od_get_set_eq (k : string) (v : pydict) (g : odict) :
  od_get (od_set k v g) k = Some v.
Proof.
  induction g as [|[k0 v0] g IH]; simpl.
  - by rewrite decide_True.
  - destruct (decide (k0 = k)) as [->|Hne]; simpl.
    + by rewrite decide_True.
    + by rewrite decide_False.
Qed.

Lemma od_get_set_ne (k k' : string) (v : pydict) (g : odict) :
  k ≠ k' → od_get (od_set k v g) k' = od_get g k'.
Proof.
  intros Hne. induction g as [|[k0 v0] g IH]; simpl.
  - by rewrite decide_False.
  - destruct (decide (k0 = k)) as [->|Hne0]; simpl.
    + by rewrite !decide_False.
    + destruct (decide (k0 = k')); [done | apply IH].
Qed.

Lemma od_set_fresh (k : string) (v : pydict) (g : odict) :
  od_get g k = None → od_set k v g = g ++ [(k, v)].
Proof.
  induction g as [|[k0 v0] g IH]; simpl; [done|].
  destruct (decide (k0 = k)); [done|]. intros H. by rewrite IH.
Qed.

(** *** The invariants of the data file *)

Lemma named_get (g : odict) (k : string) (v : pydict) :
  named g → od_get g k = Some v → is_Some (v !! "name").
Proof.
  unfold named. induction g as [|[k0 v0] g IH]; simpl; [done|].
  intros [H0 Hg]%Forall_cons. destruct (decide (k0 = k)); [by intros [= <-] | by apply IH].
Qed.

Lemma named_alter (f : pydict → pydict) (k : string) (g : odict) :
  (∀ v, is_Some (v !! "name") → is_Some (f v !! "name")) →
  named g → named (od_alter f k g).
Proof.
  intros Hf. unfold named. induction g as [|[k0 v0] g IH]; simpl; [done|].
  intros [H0 Hg]%Forall_cons.
  destruct (decide (k0 = k)); constructor; simpl in *; auto.
Qed.

Lemma named_set (k : string) (v : pydict) (g : odict) :
  is_Some (v !! "name") → named g → named (od_set k v g).
Proof.
  intros Hv. unfold named. induction g as [|[k0 v0] g IH]; simpl.
  - intros _. by repeat constructor.
  - intros [H0 Hg]%Forall_cons. destruct (decide (k0 = k)); constructor; auto.
Qed.

Lemma named_del (k : string) (g : odict) : named g → named (od_del k g).
Proof.
  unfold named. induction g as [|[k0 v0] g IH]; simpl; [done|].
  intros [H0 Hg]%Forall_cons.
  destruct (decide (k0 = k)); [done|]. constructor; simpl in *; auto.
Qed.

Lemma od_keys_set (k : string) (v : pydict) (g : odict) :
  od_keys (od_set k v g) = if od_get g k is Some _ then od_keys g else od_keys g ++ [k].
Proof.
  unfold od_keys. induction g as [|[k0 v0] g IH]; csimpl; [done|].
  destruct (decide (k0 = k)); csimpl; [done|]. rewrite IH.
  by destruct (od_get g k).
Qed.

Lemma od_wf_set (k : string) (v : pydict) (g : odict) : od_wf g → od_wf (od_set k v g).
Proof.
  unfold od_wf. rewrite od_keys_set. intros Hwf.
  destruct (od_get g k) eqn:Hget; [done|]. apply od_get_None in Hget.
  apply NoDup_app. split; [done|]. split; [|apply NoDup_singleton].
  intros x Hx ->%list_elem_of_singleton. done.
Qed.

(** ** The price-check cycle *)

Lemma sep_by_cons {A : Type} (sep x y : A) (l : list A) :
  sep_by sep (x :: y :: l) = x :: sep :: sep_by sep (y :: l).
Proof. reflexivity. Qed.

Lemma elem_of_concat (x : string) (ls : list (list string)) :
  x ∈ concat ls ↔ ∃ l, l ∈ ls ∧ x ∈ l.
Proof.
  induction ls as [|l0 ls IH]; cbn [concat].
  - split; [by intros ?%elem_of_nil | by intros (l & ?%elem_of_nil & _)].
  - rewrite elem_of_app, IH. split.
    + intros [H|(l & Hl & Hx)].
      * exists l0. split; [apply list_elem_of_here | done].
      * exists l. split; [by apply list_elem_of_further | done].
    + intros (l & [->|Hl]%elem_of_cons & Hx); [by left | right; eauto].
Qed.

Lemma alerts_for_app k (l1 l2 : list event) :
  alerts_for k (l1 ++ l2) = alerts_for k l1 ++ alerts_for k l2.
Proof. apply omap_app. Qed.

Lemma alert_keys_app (l1 l2 : list event) :
  alert_keys (l1 ++ l2) = alert_keys l1 ++ alert_keys l2.
Proof. apply omap_app. Qed.

Lemma network_app (l1 l2 : list event) : network (l1 ++ l2) = network l1 ++ network l2.
Proof. apply omap_app. Qed.

Lemma network_fetch b (l : list event) : network (EFetch b :: l) = Request b :: network l.
Proof. reflexivity. Qed.

Lemma saved_app (l1 l2 : list event) : saved (l1 ++ l2) = saved l1 ++ saved l2.
Proof. apply omap_app. Qed.

Lemma alerts_for_other k a em : k ≠ a → alerts_for k [ESend a em] = [].
Proof. intros Hne. cbn. by rewrite decide_False. Qed.

Section CycleFacts.

Variable py_float : string → option float.
Variable http_get : list string → http_resp.

(** *** One product *)

Lemma check_game_absent prices a (g : odict) :
  prices !! a = None → check_game py_float prices a g = ([], Ok g).
Proof. intros H. unfold check_game. by rewrite H. Qed.

Lemma check_game_events prices a (g : odict) ev r :
  check_game py_float prices a g = (ev, r) →
  ev = [] ∨ ∃ em, ev = [ESend a em].
Proof.
  unfold check_game. intros H.
  repeat case_match; simplify_eq; eauto.
Qed.

Lemma check_game_ok prices a (g g' : odict) ev :
  check_game py_float prices a g = (ev, Ok g') →
  od_keys g' = od_keys g ∧ ∀ k, k ≠ a → od_get g' k = od_get g k.
Proof.
  unfold check_game. intros H.
  repeat case_match; simplify_eq; try done;
    (split; [apply od_keys_alter | intros k Hk; by apply od_get_alter_ne]).
Qed.

Lemma check_game_alerts prices a (g : odict) gd stored :
  prices !! a = Some gd → od_get g a = Some stored →
  alerts_for a (check_game py_float prices a g).1 = game_alert py_float stored gd.
Proof.
  intros Hp Hg. unfold check_game, game_alert. rewrite Hp, Hg.
  cbn [evaluate]. destruct (alerts_of py_float stored (gd_prices gd)); [done|].
  destruct (make_embed _ _ _); [|done].
  cbn. by rewrite decide_True.
Qed.

Lemma check_game_updated prices a (g g' : odict) gd stored ev :
  prices !! a = Some gd → od_get g a = Some stored →
  check_game py_float prices a g = (ev, Ok g') →
  od_get g' a = Some (update_stored stored (gd_prices gd)).
Proof.
  intros Hp Hg. unfold check_game. rewrite Hp, Hg. cbn [evaluate].
  intros H. repeat case_match; simplify_eq; by rewrite od_get_alter_eq, Hg.
Qed.

Lemma check_game_named prices a (g g' : odict) gd stored ev :
  prices !! a = Some gd → od_get g a = Some stored →
  check_game py_float prices a g = (ev, Ok g') →
  alerts_of py_float stored (gd_prices gd) ≠ [] → is_Some (stored !! "name").
Proof.
  intros Hp Hg. unfold check_game, make_embed. rewrite Hp, Hg. cbn [evaluate].
  destruct (alerts_of py_float stored (gd_prices gd)); [done|].
  by destruct (stored !! "name").
Qed.

(** *** One batch *)

Lemma for_games_trace prices batch (g : odict) ev r :
  for_games py_float prices batch g = (ev, r) →
  network ev = [] ∧ saved ev = [] ∧ alert_keys ev `sublist_of` batch.
Proof.
  revert g ev r. induction batch as [|a rest IH]; intros g ev r; simpl.
  - intros [= <- <-]. by repeat split.
  - destruct (check_game py_float prices a g) as [ev1 [g1|e]] eqn:Hc.
    + destruct (for_games py_float prices rest g1) as [ev2 r2] eqn:Hf.
      intros [= <- <-]. apply IH in Hf as (Hn & Hs & Hk).
      rewrite network_app, saved_app, alert_keys_app, Hn, Hs.
      apply check_game_events in Hc as [->|[em ->]]; cbn.
      * repeat split; try done. by apply sublist_cons.
      * repeat split; try done. by apply sublist_skip.
    + intros [= <- <-].
      apply check_game_events in Hc as [->|[em ->]]; cbn.
      * repeat split; try done. apply sublist_nil_l.
      * repeat split; try done. apply sublist_skip, sublist_nil_l.
Qed.

Lemma for_games_keys prices batch (g g' : odict) ev :
  for_games py_float prices batch g = (ev, Ok g') → od_keys g' = od_keys g.
Proof.
  revert g ev. induction batch as [|a rest IH]; intros g ev; simpl.
  - by intros [= <- <-].
  - destruct (check_game py_float prices a g) as [ev1 [g1|e]] eqn:Hc; [|done].
    destruct (for_games py_float prices rest g1) as [ev2 r2] eqn:Hf.
    intros [= <- ->]. apply IH in Hf. apply check_game_ok in Hc as [Hk _].
    congruence.
Qed.

(** A product the answer does not mention, or that is not in the batch,
    gets no alert and keeps its entry. *)
Lemma for_games_skip prices batch (g : odict) ev r k :
  (k ∈ batch → prices !! k = None) →
  for_games py_float prices batch g = (ev, r) →
  alerts_for k ev = [] ∧ ∀ g', r = Ok g' → od_get g' k = od_get g k.
Proof.
  revert g ev r. induction batch as [|a rest IH]; intros g ev r Hk; simpl.
  - intros [= <- <-]. split; [done|]. by intros g' [= ->].
  - assert (k ∈ rest → prices !! k = None) as Hk'.
    { intros ?. apply Hk. by apply list_elem_of_further. }
    destruct (decide (a = k)) as [->|Hne].
    + rewrite check_game_absent by (apply Hk; apply list_elem_of_here).
      destruct (for_games py_float prices rest g) as [ev2 r2] eqn:Hf.
      intros [= <- <-]. by apply (IH _ _ _ Hk') in Hf.
    + destruct (check_game py_float prices a g) as [ev1 [g1|e]] eqn:Hc.
      * destruct (for_games py_float prices rest g1) as [ev2 r2] eqn:Hf.
        intros [= <- <-]. apply (IH _ _ _ Hk') in Hf as [Ha Hg].
        rewrite alerts_for_app, Ha, app_nil_r.
        apply check_game_ok in Hc as Hok. destruct Hok as [_ Hget].
        split.
        -- apply check_game_events in Hc as [->|[em ->]]; [done|].
           by apply alerts_for_other.
        -- intros g' Hg'. rewrite (Hg _ Hg'). by apply Hget.
      * intros [= <- <-]. split; [|done].
        apply check_game_events in Hc as [->|[em ->]]; [done|].
        by apply alerts_for_other.
Qed.

(** A product of the batch that the answer mentions gets the alert of its
    own entry, once. *)
Lemma for_games_hit prices batch (g g' : odict) ev k gd stored :
  NoDup batch → k ∈ batch →
  prices !! k = Some gd → od_get g k = Some stored →
  for_games py_float prices batch g = (ev, Ok g') →
  alerts_for k ev = game_alert py_float stored gd
  ∧ od_get g' k = Some (update_stored stored (gd_prices gd))
  ∧ (alerts_of py_float stored (gd_prices gd) ≠ [] → is_Some (stored !! "name")).
Proof.
  revert g ev. induction batch as [|a rest IH]; intros g ev Hnd Hin Hp Hg; simpl.
  - by apply elem_of_nil in Hin.
  - apply NoDup_cons in Hnd as [Ha Hnd].
    destruct (check_game py_float prices a g) as [ev1 [g1|e]] eqn:Hc; [|done].
    destruct (for_games py_float prices rest g1) as [ev2 r2] eqn:Hf.
    intros [= <- ->]. rewrite alerts_for_app.
    destruct (decide (a = k)) as [->|Hne].
    + pose proof (check_game_alerts prices k g gd stored Hp Hg) as Hal.
      rewrite Hc in Hal. cbn [fst] in Hal. rewrite Hal.
      pose proof (check_game_updated _ _ _ _ _ _ _ Hp Hg Hc) as Hup.
      pose proof (check_game_named _ _ _ _ _ _ _ Hp Hg Hc) as Hnm.
      apply for_games_skip with (k := k) in Hf as [Hno Hsame]; [|done].
      rewrite Hno, app_nil_r. split; [done|]. split; [|done].
      by rewrite (Hsame _ eq_refl).
    + apply elem_of_cons in Hin as [->|Hin]; [done|].
      apply check_game_ok in Hc as Hok. destruct Hok as [_ Hget].
      rewrite <- (Hget k) in Hg by done.
      apply (IH _ _ Hnd Hin Hp Hg) in Hf as [Hal Hup].
      split; [|done]. rewrite Hal.
      apply check_game_events in Hc as [->|[em ->]]; [done|].
      by rewrite alerts_for_other.
Qed.

(** *** The batches *)

Lemma chunks_nil fuel : chunks fuel [] = [].
Proof. by destruct fuel. Qed.

Lemma chunks_empty_iff fuel (l : list string) :
  length l ≤ fuel → (chunks fuel l = [] ↔ l = []).
Proof.
  destruct fuel, l; simpl; try done. lia.
Qed.

Lemma chunks_concat fuel (l : list string) :
  length l ≤ fuel → concat (chunks fuel l) = l.
Proof.
  revert l. induction fuel as [|fuel IH]; intros l Hl.
  - destruct l; [done | simpl in Hl; lia].
  - destruct l as [|x l]; [done|].
    cbn [chunks concat]. rewrite IH, take_drop; [done|].
    rewrite length_drop. simpl in *. lia.
Qed.

Lemma chunks_bounds fuel (l : list string) :
  Forall (λ b, 0 < length b ≤ 100) (chunks fuel l).
Proof.
  revert l. induction fuel as [|fuel IH]; intros l; [constructor|].
  destruct l as [|x l]; [constructor|]. cbn [chunks]. constructor; [|apply IH].
  rewrite length_take. cbn [length]. lia.
Qed.

Lemma chunks_150 (l : list string) :
  length l = 150 → batches_of l = [take 100 l; drop 100 l].
Proof.
  intros Hl. unfold batches_of. rewrite Hl.
  destruct l as [|x l]; [done|]. cbn [chunks]. f_equal.
  assert (length (drop 100 (x :: l)) = 50) as Hd by (rewrite length_drop; lia).
  destruct (drop 100 (x :: l)) as [|y l'] eqn:Hdrop; [done|].
  clear Hdrop. cbn [chunks]. rewrite take_ge by (simpl in *; lia).
  by rewrite drop_ge by (simpl in *; lia).
Qed.

Lemma chunks_step fuel (l : list string) :
  l ≠ [] → chunks (S fuel) l = take 100 l :: chunks fuel (drop 100 l).
Proof. by destruct l. Qed.

Lemma for_batches_chunks (app_ids : list string) fuel i (g : odict) :
  length app_ids ≤ i + fuel →
  for_batches py_float http_get app_ids (range_from fuel i (length app_ids) 100) g
  = run_batches py_float http_get (chunks fuel (drop i app_ids)) g.
Proof.
  revert i g. induction fuel as [|fuel IH]; intros i g Hn; [done|].
  cbn [range_from]. destruct (Nat.ltb_spec i (length app_ids)) as [Hi|Hi].
  - assert (drop i app_ids ≠ []) as Hne.
    { intros H%(f_equal length). rewrite length_drop in H. simpl in H. lia. }
    rewrite chunks_step, drop_drop by done.
    cbn [for_batches run_batches]. unfold do_batch.
    destruct (fetch_prices http_get (take 100 (drop i app_ids))) as [ev [prices|e]];
      [|done].
    destruct (for_games py_float prices (take 100 (drop i app_ids)) g)
      as [ev' [g1|e]]; [|done].
    rewrite IH by lia.
    destruct (run_batches py_float http_get (chunks fuel (drop (i + 100) app_ids)) g1) as [ev'' r] eqn:Hr.
    assert ((if i + 100 <? length app_ids then [ESleep 2] else [])
            = (if chunks fuel (drop (i + 100) app_ids) is [] then [] else [ESleep 2]))
      as ->; [|by rewrite <- !app_assoc].
    destruct (Nat.ltb_spec (i + 100) (length app_ids)) as [Hlt|Hge].
    + destruct (chunks fuel (drop (i + 100) app_ids)) eqn:Hc; [|done].
      apply chunks_empty_iff in Hc; [|rewrite length_drop; lia].
      apply (f_equal length) in Hc. rewrite length_drop in Hc. simpl in Hc. lia.
    + by rewrite drop_ge, chunks_nil by lia.
  - by rewrite drop_ge, chunks_nil by lia.
Qed.

Lemma py_range_batches (app_ids : list string) (g : odict) :
  for_batches py_float http_get app_ids (py_range 0 (length app_ids) 100) g
  = run_batches py_float http_get (batches_of app_ids) g.
Proof.
  unfold py_range, batches_of. by rewrite for_batches_chunks by lia.
Qed.

Lemma fetch_prices_events (b : list string) :
  b ≠ [] → (fetch_prices http_get b).1 = [EFetch b].
Proof. by destruct b. Qed.

Lemma fetch_prices_trace (b : list string) :
  saved (fetch_prices http_get b).1 = []
  ∧ alert_keys (fetch_prices http_get b).1 = []
  ∧ ∀ k, alerts_for k (fetch_prices http_get b).1 = [].
Proof. by destruct b. Qed.

(** *** The loop over the batches *)

Lemma pause_trace (rest : list (list string)) :
  saved (if rest is [] then [] else [ESleep 2]) = []
  ∧ alert_keys (if rest is [] then [] else [ESleep 2]) = []
  ∧ ∀ k, alerts_for k (if rest is [] then [] else [ESleep 2]) = [].
Proof. by destruct rest. Qed.

Lemma run_batches_network bs (g g' : odict) ev :
  Forall (λ b, b ≠ []) bs →
  run_batches py_float http_get bs g = (ev, Ok g') →
  network ev = sep_by (Pause 2) (Request <$> bs).
Proof.
  revert g ev. induction bs as [|b rest IH]; intros g ev Hne; cbn [run_batches].
  - by intros [= <- <-].
  - apply Forall_cons in Hne as [Hb Hne].
    pose proof (fetch_prices_events b Hb) as Hev.
    destruct (fetch_prices http_get b) as [ev1 [prices|e]]; [|done].
    cbn [fst] in Hev. subst ev1.
    destruct (for_games py_float prices b g) as [ev2 [g1|e]] eqn:Hg; [|done].
    destruct (run_batches py_float http_get rest g1) as [ev3 r3] eqn:Hr.
    intros [= <- ->]. apply for_games_trace in Hg as (Hn & _ & _).
    apply IH in Hr; [|done].
    rewrite network_fetch, !network_app, Hn, Hr. destruct rest; reflexivity.
Qed.

Lemma run_batches_trace bs (g : odict) ev r :
  run_batches py_float http_get bs g = (ev, r) →
  saved ev = [] ∧ alert_keys ev `sublist_of` concat bs.
Proof.
  revert g ev r. induction bs as [|b rest IH]; intros g ev r; cbn [run_batches].
  - intros [= <- <-]. by split.
  - destruct (fetch_prices_trace b) as (Hs1 & Hk1 & _).
    destruct (pause_trace rest) as (Hsp & Hkp & _).
    destruct (fetch_prices http_get b) as [ev1 [prices|e]].
    + cbn [fst] in Hs1, Hk1.
      destruct (for_games py_float prices b g) as [ev2 [g1|e]] eqn:Hg.
      * destruct (run_batches py_float http_get rest g1) as [ev3 r3] eqn:Hr.
        intros [= <- <-]. apply for_games_trace in Hg as (_ & Hs2 & Hk2).
        apply IH in Hr as [Hs3 Hk3].
        rewrite !saved_app, !alert_keys_app, Hs1, Hs2, Hsp, Hs3, Hk1, Hkp.
        split; [done|]. cbn [concat app]. rewrite app_nil_r.
        by apply sublist_app.
      * intros [= <- <-]. apply for_games_trace in Hg as (_ & Hs2 & Hk2).
        rewrite saved_app, alert_keys_app, Hs1, Hs2, Hk1.
        split; [done|]. cbn [concat app].
        by apply sublist_inserts_r.
    + cbn [fst] in Hs1, Hk1. intros [= <- <-]. rewrite Hs1, Hk1.
      split; [done|]. apply sublist_nil_l.
Qed.

Lemma run_batches_keys bs (g g' : odict) ev :
  run_batches py_float http_get bs g = (ev, Ok g') → od_keys g' = od_keys g.
Proof.
  revert g ev. induction bs as [|b rest IH]; intros g ev; cbn [run_batches].
  - by intros [= <- <-].
  - destruct (fetch_prices http_get b) as [ev1 [prices|e]]; [|done].
    destruct (for_games py_float prices b g) as [ev2 [g1|e]] eqn:Hg; [|done].
    destruct (run_batches py_float http_get rest g1) as [ev3 r3] eqn:Hr.
    intros [= <- ->]. apply IH in Hr. apply for_games_keys in Hg. congruence.
Qed.

(** A product that no answer mentions gets no alert and keeps its entry,
    however far the cycle gets. *)
Lemma run_batches_skip bs (g : odict) ev r k :
  (∀ b prices, b ∈ bs → k ∈ b →
     (fetch_prices http_get b).2 = Ok prices → prices !! k = None) →
  run_batches py_float http_get bs g = (ev, r) →
  alerts_for k ev = [] ∧ ∀ g', r = Ok g' → od_get g' k = od_get g k.
Proof.
  revert g ev r. induction bs as [|b rest IH]; intros g ev r Hk; cbn [run_batches].
  - intros [= <- <-]. split; [done|]. by intros g' [= ->].
  - assert (∀ b' prices, b' ∈ rest → k ∈ b' →
              (fetch_prices http_get b').2 = Ok prices → prices !! k = None) as Hk'.
    { intros b' prices Hb'. apply Hk. by apply list_elem_of_further. }
    destruct (fetch_prices_trace b) as (_ & _ & Ha1). specialize (Ha1 k).
    destruct (pause_trace rest) as (_ & _ & Hap). specialize (Hap k).
    specialize (Hk b). 
    destruct (fetch_prices http_get b) as [ev1 [prices|e]]; cbn [fst snd] in *.
    + assert (k ∈ b → prices !! k = None) as Hkb.
      { intros Hin. by apply Hk; [apply list_elem_of_here|..]. }
      destruct (for_games py_float prices b g) as [ev2 [g1|e]] eqn:Hg.
      * destruct (run_batches py_float http_get rest g1) as [ev3 r3] eqn:Hr.
        intros [= <- <-]. apply (for_games_skip _ _ _ _ _ k Hkb) in Hg as [Ha2 Hg2].
        apply (IH _ _ _ Hk') in Hr as [Ha3 Hg3].
        rewrite !alerts_for_app, Ha1, Ha2, Hap, Ha3. split; [done|].
        intros g' Hg'. rewrite (Hg3 _ Hg'). by apply Hg2.
      * intros [= <- <-]. apply (for_games_skip _ _ _ _ _ k Hkb) in Hg as [Ha2 _].
        rewrite alerts_for_app, Ha1, Ha2. by split.
    + intros [= <- <-]. by split.
Qed.

(** With pairwise distinct keys, a product whose batch is answered with a
    record gets the alert of the entry it had when the cycle began, once. *)
Lemma run_batches_hit bs (g g' : odict) ev k gd stored :
  NoDup (concat bs) → k ∈ concat bs →
  (∀ b, b ∈ bs → k ∈ b →
     ∃ prices, (fetch_prices http_get b).2 = Ok prices ∧ prices !! k = Some gd) →
  od_get g k = Some stored →
  run_batches py_float http_get bs g = (ev, Ok g') →
  alerts_for k ev = game_alert py_float stored gd
  ∧ od_get g' k = Some (update_stored stored (gd_prices gd))
  ∧ (alerts_of py_float stored (gd_prices gd) ≠ [] → is_Some (stored !! "name")).
Proof.
  revert g ev. induction bs as [|b rest IH]; intros g ev Hnd Hin Hk Hg0;
    cbn [run_batches].
  - by apply elem_of_nil in Hin.
  - cbn [concat] in Hnd, Hin. apply NoDup_app in Hnd as (Hndb & Hdisj & Hndr).
    destruct (fetch_prices_trace b) as (_ & _ & Ha1). specialize (Ha1 k).
    destruct (pause_trace rest) as (_ & _ & Hap). specialize (Hap k).
    pose proof (Hk b (list_elem_of_here _ _)) as Hkb.
    destruct (fetch_prices http_get b) as [ev1 [prices|e]]; [|done].
    cbn [fst snd] in *.
    destruct (for_games py_float prices b g) as [ev2 [g1|e]] eqn:Hg; [|done].
    destruct (run_batches py_float http_get rest g1) as [ev3 r3] eqn:Hr.
    intros [= <- ->]. rewrite !alerts_for_app, Ha1, Hap. cbn [app].
    destruct (decide (k ∈ b)) as [Hb|Hb].
    + destruct (Hkb Hb) as (prices' & [= <-] & Hp).
      apply (for_games_hit _ _ _ _ _ _ _ _ Hndb Hb Hp Hg0) in Hg as (Ha2 & Hup & Hnm).
      apply run_batches_skip with (k := k) in Hr as [Ha3 Hg3].
      * rewrite Ha2, Ha3, !app_nil_r. split; [done|]. split; [|done].
        by rewrite (Hg3 _ eq_refl).
      * intros b' prices' Hb' Hkb'. exfalso. apply (Hdisj k Hb).
        apply elem_of_concat. eauto.
    + apply elem_of_app in Hin as [Hin|Hin]; [done|].
      apply for_games_skip with (k := k) in Hg as [Ha2 Hg2]; [|done].
      rewrite <- (Hg2 _ eq_refl) in Hg0.
      apply (IH _ _ Hndr Hin) in Hr as [Ha3 Hup]; [|..|done].
      * by rewrite Ha2, Ha3.
      * intros b' Hb'. apply Hk. by apply list_elem_of_further.
Qed.

End CycleFacts.

(** ** What one cycle does *)

Section CycleProperties.

Variable py_float : string → option float.
Variable http_get : list string → http_resp.

(** A cycle that is not cut short ran the loop over the batches to its end
    and saved what the loop left. *)
Lemma price_checker_completed (disk : option odict) :
  load_data disk ≠ [] →
  r_exn (price_checker py_float http_get true disk) = None →
  ∃ ev g',
    run_batches py_float http_get (batches_of (od_keys (load_data disk))) (load_data disk)
      = (ev, Ok g')
    ∧ price_checker py_float http_get true disk = Run (ev ++ [ESave g']) (Some g') None.
Proof.
  intros Hne. unfold price_checker.
  destruct (load_data disk) as [|kv g] eqn:Hload; [done|].
  cbn [negb]. rewrite py_range_batches.
  destruct (run_batches _ _ _ _) as [ev [g'|e]]; [|done].
  intros _. by exists ev, g'.
Qed.

(** C4.  A tracked product that the price source does not report keeps its
    stored entry through the cycle, field for field, and gets no alert. *)
Theorem absent_key_untouched (channel : bool) (disk : option odict) (k : string) :
  (∀ b prices, k ∈ b →
     (fetch_prices http_get b).2 = Ok prices → prices !! k = None) →
  let r := price_checker py_float http_get channel disk in
  od_get (load_data (r_disk r)) k = od_get (load_data disk) k
  ∧ alerts_for k (r_events r) = [].
Proof.
  intros Hk. unfold price_checker.
  destruct (load_data disk) as [|kv g] eqn:Hload;
    [cbn [r_disk r_events]; by rewrite Hload|].
  destruct channel; cbn [negb]; [|cbn [r_disk r_events]; by rewrite Hload].
  rewrite py_range_batches.
  destruct (run_batches _ _ _ _) as [ev [g'|e]] eqn:Hr; cbn [r_disk r_events].
  - apply run_batches_skip with (k := k) in Hr as [Ha Hg]; [|by eauto].
    rewrite alerts_for_app, Ha. split; [|done]. by apply Hg.
  - apply run_batches_skip with (k := k) in Hr as [Ha _]; [|by eauto].
    by rewrite Hload.
Qed.


(** C7.  A completed cycle requests the tracked keys in consecutive batches
    of at most 100 and pauses between two batches, not after the last:
    for 150 keys, two requests of 100 and 50 keys with one pause between
    them. *)
Theorem cycle_batches (disk : option odict) :
  let app_ids := od_keys (load_data disk) in
  let r := price_checker py_float http_get true disk in
  r_exn r = None →
  network (r_events r) = sep_by (Pause 2) (Request <$> batches_of app_ids)
  ∧ concat (batches_of app_ids) = app_ids
  ∧ Forall (λ b, 0 < length b ≤ 100) (batches_of app_ids)
  ∧ (length app_ids = 150 →
     network (r_events r)
       = [Request (take 100 app_ids); Pause 2; Request (drop 100 app_ids)]
     ∧ length (take 100 app_ids) = 100 ∧ length (drop 100 app_ids) = 50).
Proof.
  intros app_ids r Hdone. subst app_ids r.
  assert (network (r_events (price_checker py_float http_get true disk))
          = sep_by (Pause 2) (Request <$> batches_of (od_keys (load_data disk))))
    as Hnet.
  { destruct (decide (load_data disk = [])) as [Hnil|Hne].
    - unfold price_checker. by rewrite Hnil.
    - destruct (price_checker_completed disk Hne Hdone) as (ev & g' & Hrun & ->).
      cbn [r_events]. rewrite network_app. cbn [network omap net_of].
      rewrite app_nil_r. apply run_batches_network in Hrun; [done|].
      eapply Forall_impl; [apply chunks_bounds|].
      intros b [Hb _] ->. simpl in Hb. lia. }
  split; [done|]. split; [by apply chunks_concat|]. split; [apply chunks_bounds|].
  intros Hlen. rewrite Hnet, chunks_150 by done. split; [done|].
  rewrite length_take, length_drop. lia.
Qed.

End CycleProperties.

(** ** Malformed prices *)

Section MalformedPrices.

Variable py_float : string → option float.

(** C5.  When [float] rejects the stored or the fetched price of a channel,
    the evaluation yields no drop for that channel, the drops found are
    exactly those of the other channel's comparison, and the product's
    step of the cycle ends normally with the entry updated. *)
Theorem malformed_price_skips_channel
    (prices : gmap string game_data) (app_id : string) (games : odict)
    (gd : game_data) (stored : pydict) (c : channel) (s : string) :
  prices !! app_id = Some gd →
  od_get games app_id = Some stored →
  is_Some (stored !! "name") →
  py_get (gd_prices gd) (current_key c) = PStr s ∨ py_get stored (last_key c) = PStr s →
  py_float s = None →
  let p := gd_prices gd in
  let alerts := (evaluate py_float stored p).1 in
  drops_for c alerts = []
  ∧ alerts = compare_channel py_float (other c) (py_get p (current_key (other c)))
               (py_get stored (last_key (other c))) (new_currency stored p)
  ∧ ∃ ev, check_game py_float prices app_id games
          = (ev, Ok (od_alter (λ _, update_stored stored p) app_id games)).
Proof.
  intros Hp Hg [name Hname] Hs Hf p alerts. subst p alerts. cbn [evaluate fst].
  pose proof (compare_channel_malformed py_float c _ _
                (new_currency stored (gd_prices gd)) s Hs Hf) as Hc.
  split; [by rewrite alerts_of_channel|]. split.
  - unfold alerts_of. destruct c; cbn [current_key last_key other] in *.
    + by rewrite Hc.
    + by rewrite Hc, app_nil_r.
  - unfold check_game, make_embed. rewrite Hp, Hg, Hname. cbn [evaluate].
    destruct (alerts_of py_float stored (gd_prices gd)); eauto.
Qed.

End MalformedPrices.

(** ** The commands *)

Section CommandProperties.

Variable http_get : list string → http_resp.

(** C9.  A [!watch] of a key that is not on the watchlist, to which the
    price source answers without a record for the key, makes that one
    request, replies NotFound, leaves the data file as it was and writes
    nothing.  (A key already on the watchlist is answered before the source
    is asked: lines 136-138.) *)
Theorem watch_unknown_key
    (author steam_app_id game_name : string) (disk : option odict)
    (prices : gmap string game_data) :
  let r := watch_game http_get author steam_app_id game_name disk in
  od_get (load_data disk) steam_app_id = None →
  (fetch_prices http_get [steam_app_id]).2 = Ok prices →
  prices !! steam_app_id = None →
  r_events r = [EFetch [steam_app_id]; EReply (NotFound steam_app_id)]
  ∧ r_disk r = disk
  ∧ saved (r_events r) = []
  ∧ r_exn r = None.
Proof.
  intros r Hget. subst r. unfold watch_game. rewrite Hget.
  cbn [fetch_prices fst snd].
  destruct (if status _ =? 429 then _ else _) as [m|e]; [|done].
  intros [= ->] ->. by repeat split.
Qed.

(** C10.  On a watchlist as the bot writes it, [!unwatch] of a watched key
    saves the watchlist without that key, every other entry and the order
    of the keys unchanged; [!unwatch] of a key that is not watched replies
    NotWatched and writes nothing. *)
Theorem unwatch_removes_only_key (steam_app_id : string) (disk : option odict) :
  let games := load_data disk in
  let r := unwatch_game steam_app_id disk in
  od_wf games →
  named games →
  (steam_app_id ∈ od_keys games →
     r_disk r = Some (od_del steam_app_id games)
     ∧ saved (r_events r) = [od_del steam_app_id games]
     ∧ od_get (od_del steam_app_id games) steam_app_id = None
     ∧ (∀ k, k ≠ steam_app_id → od_get (od_del steam_app_id games) k = od_get games k)
     ∧ od_keys (od_del steam_app_id games) = filter (λ k, k ≠ steam_app_id) (od_keys games))
  ∧ (steam_app_id ∉ od_keys games →
     r_events r = [EReply (NotWatched steam_app_id)]
     ∧ r_disk r = disk
     ∧ saved (r_events r) = []).
Proof.
  intros games r Hwf Hnamed. subst r. unfold unwatch_game. fold games. split.
  - intros Hin.
    destruct (od_get games steam_app_id) as [stored|] eqn:Hget;
      [|by apply od_get_None in Hget].
    destruct (named_get _ _ _ Hnamed Hget) as [name ->]. cbn [r_disk r_events].
    split; [done|]. split; [done|]. split; [by apply od_get_del_eq|].
    split; [intros k Hk; by apply od_get_del_ne | by apply od_keys_del].
  - intros Hnot. apply od_get_None in Hnot. by rewrite Hnot.
Qed.

End CommandProperties.

(** ** The operations keep the invariants of the data file

    The hypotheses [od_wf] and [named] used above hold of every file the
    bot itself has written, starting from no file. *)

Section Invariants.

Variable py_float : string → option float.
Variable http_get : list string → http_resp.

Lemma file_ok_initial : file_ok None.
Proof. split; [apply NoDup_nil_2 | constructor]. Qed.

Lemma new_entry_named steam_app_id game_name author gd :
  is_Some (new_entry steam_app_id game_name author gd !! "name").
Proof. unfold new_entry. by simplify_map_eq. Qed.

Lemma watch_game_file_ok author steam_app_id game_name disk :
  file_ok disk → file_ok (r_disk (watch_game http_get author steam_app_id game_name disk)).
Proof.
  intros [Hwf Hnamed]. unfold watch_game.
  destruct (od_get (load_data disk) steam_app_id) as [stored|].
  - by destruct (stored !! "name").
  - destruct (fetch_prices http_get [steam_app_id]) as [ev [prices|e]]; [|done].
    destruct (prices !! steam_app_id); [|done]. split.
    + by apply od_wf_set.
    + apply named_set; [apply new_entry_named | done].
Qed.

Lemma unwatch_game_file_ok steam_app_id disk :
  file_ok disk → file_ok (r_disk (unwatch_game steam_app_id disk)).
Proof.
  intros [Hwf Hnamed]. unfold unwatch_game.
  destruct (od_get (load_data disk) steam_app_id) as [stored|]; [|done].
  destruct (stored !! "name"); [|done]. split.
  - by apply od_wf_del.
  - by apply named_del.
Qed.

Lemma check_game_named_ok prices a (g g' : odict) ev :
  named g → check_game py_float prices a g = (ev, Ok g') → named g'.
Proof.
  intros Hnamed. unfold check_game.
  destruct (prices !! a) as [gd|]; [|by intros [= <- <-]].
  destruct (od_get g a) as [stored|] eqn:Hget; [|done].
  pose proof (named_get _ _ _ Hnamed Hget) as Hname. cbn [evaluate].
  assert (named (od_alter (λ _, update_stored stored (gd_prices gd)) a g)) as Hn.
  { apply named_alter; [|done]. intros _ _. by apply update_stored_named. }
  destruct (alerts_of py_float stored (gd_prices gd)).
  - by intros [= <- <-].
  - destruct (make_embed _ _ _); [|done]. by intros [= <- <-].
Qed.

Lemma for_games_named prices batch (g g' : odict) ev :
  named g → for_games py_float prices batch g = (ev, Ok g') → named g'.
Proof.
  revert g ev. induction batch as [|a rest IH]; intros g ev Hnamed; simpl.
  - by intros [= <- <-].
  - destruct (check_game py_float prices a g) as [ev1 [g1|e]] eqn:Hc; [|done].
    destruct (for_games py_float prices rest g1) as [ev2 r2] eqn:Hf.
    intros [= <- ->]. apply check_game_named_ok in Hc; [|done]. by eapply IH.
Qed.

Lemma run_batches_named bs (g g' : odict) ev :
  named g → run_batches py_float http_get bs g = (ev, Ok g') → named g'.
Proof.
  revert g ev. induction bs as [|b rest IH]; intros g ev Hnamed; cbn [run_batches].
  - by intros [= <- <-].
  - destruct (fetch_prices http_get b) as [ev1 [prices|e]]; [|done].
    destruct (for_games py_float prices b g) as [ev2 [g1|e]] eqn:Hg; [|done].
    destruct (run_batches py_float http_get rest g1) as [ev3 r3] eqn:Hr.
    intros [= <- ->]. apply for_games_named in Hg; [|done]. by eapply IH.
Qed.

Lemma price_checker_file_ok channel disk :
  file_ok disk → file_ok (r_disk (price_checker py_float http_get channel disk)).
Proof.
  intros [Hwf Hnamed]. unfold price_checker.
  destruct (load_data disk) as [|kv g] eqn:Hload;
    [unfold file_ok; cbn [r_disk]; by rewrite Hload|].
  destruct channel; cbn [negb]; [|unfold file_ok; cbn [r_disk]; by rewrite Hload].
  rewrite py_range_batches.
  destruct (run_batches _ _ _ _) as [ev [g'|e]] eqn:Hr; cbn [r_disk];
    [|unfold file_ok; by rewrite Hload].
  split; simpl.
  - unfold od_wf. by rewrite (run_batches_keys _ _ _ _ _ _ Hr).
  - by eapply run_batches_named.
Qed.

(** On a file the bot has written, a product with a drop always gets its
    embed: no [KeyError] ends the cycle. *)
Lemma check_game_no_key_error prices a (g : odict) :
  named g → a ∈ od_keys g →
  ∃ ev g', check_game py_float prices a g = (ev, Ok g').
Proof.
  intros Hnamed Hin. unfold check_game.
  destruct (prices !! a) as [gd|]; [|eauto].
  destruct (od_get g a) as [stored|] eqn:Hget; [|by apply od_get_None in Hget].
  destruct (named_get _ _ _ Hnamed Hget) as [name Hname]. cbn [evaluate].
  unfold make_embed. rewrite Hname.
  destruct (alerts_of py_float stored (gd_prices gd)); eauto.
Qed.

End Invariants.

(** ** The claims on sample data *)

Lemma no_data_fetch (b : list string) (prices : gmap string game_data) (k : string) :
  (fetch_prices no_data b).2 = Ok prices → prices !! k = None.
Proof. destruct b; intros [= <-]; apply lookup_empty. Defined.

Lemma net_with_fetch (p : pydict) (b : list string) :
  "220" ∈ b →
  ∃ prices, (fetch_prices (net_with p) b).2 = Ok prices
            ∧ prices !! "220" = Some (GameData (Some (PStr "Half-Life 2")) None p).
Proof.
  destruct b as [|x b]; [by intros ?%elem_of_nil|]. intros _.
  eexists. split; [reflexivity|]. apply lookup_singleton_eq.
Defined.

Lemma absent_key_untouched_witness :
  od_get (load_data (r_disk (price_checker decimal_float no_data true (Some two_games))))
    "400" = od_get two_games "400"
  ∧ alerts_for "400"
      (r_events (price_checker decimal_float no_data true (Some two_games))) = [].
Proof.
  apply (absent_key_untouched decimal_float no_data true (Some two_games) "400").
  intros b prices _. apply no_data_fetch.
Defined.

Lemma malformed_price_skips_channel_witness :
  drops_for Retail (evaluate decimal_float hl2_stored hl2_malformed).1 = []
  ∧ (evaluate decimal_float hl2_stored hl2_malformed).1
    = [DropDesc Keyshops (PStr "4.50") (PStr "3.10") (PStr "USD")].
Proof.
  destruct (malformed_price_skips_channel decimal_float
              {["220" := GameData None None hl2_malformed]} "220" hl2_games
              (GameData None None hl2_malformed) hl2_stored Retail "free")
    as (H1 & H2 & _).
  - reflexivity.
  - reflexivity.
  - by eexists.
  - left. reflexivity.
  - reflexivity.
  - split; [exact H1|]. etransitivity; [exact H2|]. vm_compute. reflexivity.
Defined.


Lemma cycle_batches_witness :
  network (r_events (price_checker decimal_float no_data true (Some games_150)))
  = [Request (take 100 (od_keys games_150)); Pause 2;
     Request (drop 100 (od_keys games_150))].
Proof.
  refine (proj1 (proj2 (proj2 (proj2
    (cycle_batches decimal_float no_data (Some games_150) _))) _)).
  - vm_compute. reflexivity.
  - vm_compute. reflexivity.
Defined.

(** C8, as the specification words it, fails: the alert of a drop is sent
    when the drop is found, before the watchlist is saved. *)
Lemma alert_sent_before_save :
  ¬ sends_follow_save
      (r_events (price_checker decimal_float (net_with hl2_retail_drop) true
                   (Some hl2_games))).
Proof.
  intros H.
  assert (∃ em, r_events (price_checker decimal_float (net_with hl2_retail_drop) true
                            (Some hl2_games)) !! 1 = Some (ESend "220" em))
    as [em Hem] by (eexists; vm_compute; reflexivity).
  destruct (H 1 "220" em Hem) as (j & g & Hj & Hsave).
  assert (j = 0) as -> by lia. vm_compute in Hsave. discriminate Hsave.
Qed.

Lemma watch_unknown_key_witness :
  r_events (watch_game no_data "gordon" "999999" "" (Some hl2_games))
  = [EFetch ["999999"]; EReply (NotFound "999999")]
  ∧ r_disk (watch_game no_data "gordon" "999999" "" (Some hl2_games)) = Some hl2_games.
Proof.
  destruct (watch_unknown_key no_data "gordon" "999999" "" (Some hl2_games) ∅)
    as (H1 & H2 & _).
  - reflexivity.
  - reflexivity.
  - apply lookup_empty.
  - by split.
Defined.

Lemma unwatch_removes_only_key_witness :
  r_disk (unwatch_game "220" (Some two_games)) = Some [("400", portal_stored)]
  ∧ r_events (unwatch_game "999999" (Some two_games)) = [EReply (NotWatched "999999")].
Proof.
  split.
  - destruct (unwatch_removes_only_key "220" (Some two_games)) as [H _].
    + unfold od_wf. apply (bool_decide_unpack _). vm_compute. exact I.
    + repeat constructor; by eexists.
    + destruct H as [H _]; [apply list_elem_of_here | exact H].
  - destruct (unwatch_removes_only_key "999999" (Some two_games)) as [_ H].
    + unfold od_wf. apply (bool_decide_unpack _). vm_compute. exact I.
    + repeat constructor; by eexists.
    + destruct H as [H _]; [|exact H].
      apply (bool_decide_unpack _). vm_compute. exact I.
Defined.

(** ** Further properties of the evaluation *)

Section AlertSoundness.

Variable py_float : string → option float.
Variable http_get : list string → http_resp.

(** X2.  A game just added is quiet: evaluated against the very record it
    was added from, its entry shows no drop in either channel. *)
Theorem new_entry_shows_no_drop (steam_app_id game_name author : string) (gd : game_data) :
  (evaluate py_float (new_entry steam_app_id game_name author gd) (gd_prices gd)).1 = [].
Proof.
  cbn [evaluate fst]. unfold alerts_of.
  assert (py_get (new_entry steam_app_id game_name author gd) "last_retail"
          = py_get (gd_prices gd) "currentRetail") as ->.
  { apply py_get_lookup. unfold new_entry. by simplify_map_eq. }
  assert (py_get (new_entry steam_app_id game_name author gd) "last_keyshops"
          = py_get (gd_prices gd) "currentKeyshops") as ->.
  { apply py_get_lookup. unfold new_entry. by simplify_map_eq. }
  by rewrite !compare_channel_same_value.
Qed.

End AlertSoundness.

(** ** Further properties of the cycle *)

Section CycleExtras.

Variable py_float : string → option float.
Variable http_get : list string → http_resp.

Lemma alerts_of_update_stored (stored p : pydict) :
  alerts_of py_float (update_stored stored p) p = [].
Proof.
  pose proof (py_get_lookup _ _ _ (update_stored_last stored p Retail)) as Hr.
  pose proof (py_get_lookup _ _ _ (update_stored_last stored p Keyshops)) as Hk.
  cbn [last_key current_key] in Hr, Hk. unfold alerts_of. rewrite Hr, Hk.
  by rewrite !compare_channel_same_value.
Qed.

Lemma for_games_empty batch (g : odict) :
  for_games py_float ∅ batch g = ([], Ok g).
Proof.
  induction batch as [|a rest IH]; [done|]. simpl.
  rewrite check_game_absent by apply lookup_empty. by rewrite IH.
Qed.

Lemma fetch_prices_no_data (b : list string) :
  no_data_answer (http_get b) → (fetch_prices http_get b).2 = Ok ∅.
Proof.
  destruct b as [|x b]; [done|]. cbn [fetch_prices snd].
  intros [->|(Hlt & bd & -> & ->)]; [done|].
  destruct (Nat.eqb_spec (status (http_get (x :: b))) 429) as [|_]; [done|].
  destruct (Nat.leb_spec 400 (status (http_get (x :: b)))); [lia | done].
Qed.

Lemma run_batches_no_data bs (g : odict) :
  (∀ b, (fetch_prices http_get b).2 = Ok ∅) →
  ∃ ev, run_batches py_float http_get bs g = (ev, Ok g) ∧ alert_keys ev = [].
Proof.
  intros Hnet. induction bs as [|b rest IH]; cbn [run_batches]; [by exists []|].
  specialize (Hnet b). destruct (fetch_prices_trace http_get b) as (_ & Hk & _).
  destruct (fetch_prices http_get b) as [ev1 r1]. cbn [fst snd] in *. subst r1.
  rewrite for_games_empty. destruct IH as (ev3 & -> & Hk3).
  eexists. split; [done|]. rewrite !alert_keys_app, Hk, Hk3.
  by destruct rest.
Qed.

(** X3.  A cycle whose every request is rate limited, or answered without
    success, completes without alert and saves the watchlist exactly as it
    was read. *)
Theorem cycle_without_data_changes_nothing (disk : option odict) :
  let r := price_checker py_float http_get true disk in
  (∀ b, no_data_answer (http_get b)) →
  load_data disk ≠ [] →
  r_exn r = None
  ∧ alert_keys (r_events r) = []
  ∧ saved (r_events r) = [load_data disk]
  ∧ r_disk r = Some (load_data disk).
Proof.
  intros r Hnet Hne. subst r. unfold price_checker.
  destruct (load_data disk) as [|kv g] eqn:Hload; [done|]. cbn [negb].
  rewrite py_range_batches.
  destruct (run_batches_no_data (batches_of (od_keys (kv :: g))) (kv :: g))
    as (ev & Hrun & Hk).
  { intros b. apply fetch_prices_no_data, Hnet. }
  rewrite Hrun. cbn [r_exn r_events r_disk].
  pose proof (run_batches_trace _ _ _ _ _ _ Hrun) as [Hs _].
  rewrite alert_keys_app, saved_app, Hk, Hs. by repeat split.
Qed.

(** X4.  A cycle that an exception cuts short writes nothing: the data file
    is the one it started from, whatever alerts were already sent. *)
Theorem aborted_cycle_saves_nothing (channel : bool) (disk : option odict) :
  let r := price_checker py_float http_get channel disk in
  is_Some (r_exn r) →
  r_disk r = disk ∧ saved (r_events r) = [].
Proof.
  intros r. subst r. unfold price_checker.
  destruct (load_data disk) as [|kv g]; [by intros [? [=]]|].
  destruct channel; cbn [negb]; [|by intros [? [=]]].
  rewrite py_range_batches.
  destruct (run_batches _ _ _ _) as [ev [g'|e]] eqn:Hr; [by intros [? [=]]|].
  intros _. cbn [r_disk r_events]. split; [done|].
  by apply run_batches_trace in Hr as [Hs _].
Qed.

(** X5.  No cycle adds, removes or reorders tracked products: the keys of
    the data file after a cycle are the keys before, in the same order. *)
Theorem cycle_keeps_keys (channel : bool) (disk : option odict) :
  od_keys (load_data (r_disk (price_checker py_float http_get channel disk)))
  = od_keys (load_data disk).
Proof.
  unfold price_checker.
  destruct (load_data disk) as [|kv g] eqn:Hload; [cbn [r_disk]; by rewrite Hload|].
  destruct channel; cbn [negb]; [|cbn [r_disk]; by rewrite Hload].
  rewrite py_range_batches.
  destruct (run_batches _ _ _ _) as [ev [g'|e]] eqn:Hr; cbn [r_disk];
    [|by rewrite Hload].
  by apply run_batches_keys in Hr.
Qed.

(** X6.  On a watchlist with distinct keys a cycle alerts each product at
    most once, and only tracked products, in the order they are tracked;
    this holds of cycles that are cut short too. *)
Theorem cycle_alerts_each_product_once (channel : bool) (disk : option odict) :
  let r := price_checker py_float http_get channel disk in
  od_wf (load_data disk) →
  NoDup (alert_keys (r_events r))
  ∧ alert_keys (r_events r) `sublist_of` od_keys (load_data disk).
Proof.
  intros r Hwf. subst r.
  assert (alert_keys (r_events (price_checker py_float http_get channel disk))
            `sublist_of` od_keys (load_data disk)) as Hsub.
  { unfold price_checker.
    destruct (load_data disk) as [|kv g] eqn:Hload; [apply sublist_nil_l|].
    destruct channel; cbn [negb]; [|apply sublist_nil_l].
    rewrite py_range_batches.
    destruct (run_batches _ _ _ _) as [ev [g'|e]] eqn:Hr; cbn [r_events];
      apply run_batches_trace in Hr as [_ Hk];
      unfold batches_of in Hk; rewrite chunks_concat in Hk by done; [|done].
    rewrite alert_keys_app. cbn. by rewrite app_nil_r. }
  split; [|done]. by eapply sublist_NoDup.
Qed.

(** X7.  After a cycle that completes, a tracked product for which the
    source gave a record has, in the data file, the fetched current price of
    each channel as its last price, and every field other than the two last
    prices, the currency and the two historical lows exactly as before
    (name, url, added_by among them). *)
Theorem cycle_advances_baseline
    (disk : option odict) (k : string) (stored : pydict) (gd : game_data) :
  let r := price_checker py_float http_get true disk in
  od_wf (load_data disk) →
  od_get (load_data disk) k = Some stored →
  (∀ b, k ∈ b →
     ∃ prices, (fetch_prices http_get b).2 = Ok prices ∧ prices !! k = Some gd) →
  r_exn r = None →
  ∃ updated,
    od_get (load_data (r_disk r)) k = Some updated
    ∧ (∀ c, updated !! last_key c = Some (py_get (gd_prices gd) (current_key c)))
    ∧ (∀ key, key ∉ ["last_retail"; "last_keyshops"; "currency";
                     "historical_retail"; "historical_keyshops"] →
         updated !! key = stored !! key).
Proof.
  intros r Hwf Hget Hk Hdone. subst r.
  assert (load_data disk ≠ []) as Hne by (intros H; by rewrite H in Hget).
  destruct (price_checker_completed _ _ disk Hne Hdone) as (ev & g' & Hrun & ->).
  cbn [r_disk]. simpl.
  apply run_batches_hit with (k := k) (gd := gd) (stored := stored)
    in Hrun as (_ & Hup & _); try done.
  - exists (update_stored stored (gd_prices gd)). split; [done|]. split.
    + intros c. apply update_stored_last.
    + intros key Hkey. by apply update_stored_frame.
  - unfold batches_of. by rewrite chunks_concat.
  - unfold batches_of. rewrite chunks_concat by done. by eapply od_get_Some_keys.
  - intros b _. apply Hk.
Qed.

End CycleExtras.

(** ** Two cycles in a row *)

Section RepeatedCycle.

Variable py_float : string → option float.
Variable http_get : list string → http_resp.
Variable source : string → option game_data.

Lemma check_game_settled prices a (g : odict) ev r :
  settled py_float source g →
  prices !! a = source a →
  check_game py_float prices a g = (ev, r) →
  ev = [] ∧ ∀ g', r = Ok g' → settled py_float source g'.
Proof.
  intros Hset Hsrc. unfold check_game.
  destruct (prices !! a) as [gd|] eqn:Hp.
  - destruct (od_get g a) as [stored|] eqn:Hget; [|by intros [= <- <-]].
    cbn [evaluate]. rewrite (Hset a stored gd Hget) by done.
    intros [= <- <-]. split; [done|]. intros g' [= <-] k s gd' Hk Hsk.
    destruct (decide (a = k)) as [->|Hne].
    + rewrite od_get_alter_eq, Hget in Hk. injection Hk as <-.
      assert (gd' = gd) as -> by congruence. apply alerts_of_update_stored.
    + rewrite od_get_alter_ne in Hk by done. by eapply Hset.
  - intros [= <- <-]. split; [done|]. by intros g' [= <-].
Qed.

Lemma for_games_settled prices batch (g : odict) ev r :
  settled py_float source g →
  (∀ k, k ∈ batch → prices !! k = source k) →
  for_games py_float prices batch g = (ev, r) →
  ev = [] ∧ ∀ g', r = Ok g' → settled py_float source g'.
Proof.
  revert g ev r. induction batch as [|a rest IH]; intros g ev r Hset Hsrc; simpl.
  - intros [= <- <-]. split; [done|]. by intros g' [= <-].
  - destruct (check_game py_float prices a g) as [ev1 [g1|e]] eqn:Hc;
      apply check_game_settled in Hc as [-> Hg1];
      try done; try (apply Hsrc, list_elem_of_here).
    + destruct (for_games py_float prices rest g1) as [ev2 r2] eqn:Hf.
      intros [= <- <-]. apply IH in Hf as [-> Hg2]; [done|by apply Hg1|].
      intros k Hk. by apply Hsrc, list_elem_of_further.
    + intros [= <- <-]. by split.
Qed.

Lemma run_batches_settled bs (g : odict) ev r :
  settled py_float source g →
  answers_from http_get source →
  run_batches py_float http_get bs g = (ev, r) →
  alert_keys ev = [].
Proof.
  intros Hset Hnet. revert g ev r Hset.
  induction bs as [|b rest IH]; intros g ev r Hset; cbn [run_batches].
  - by intros [= <- <-].
  - destruct (fetch_prices_trace http_get b) as (_ & Hk1 & _).
    destruct (pause_trace rest) as (_ & Hkp & _).
    pose proof (λ prices k Hk, Hnet b prices k Hk) as Hb.
    destruct (fetch_prices http_get b) as [ev1 [prices|e]]; cbn [fst snd] in *;
      [|by intros [= <- <-]].
    destruct (for_games py_float prices b g) as [ev2 [g1|e]] eqn:Hg;
      apply for_games_settled in Hg as [-> Hg1]; try done;
      try (intros k Hk; by apply Hb).
    + destruct (run_batches py_float http_get rest g1) as [ev3 r3] eqn:Hr.
      intros [= <- <-]. apply IH in Hr; [|by apply Hg1].
      by rewrite !alert_keys_app, Hk1, Hkp, Hr.
    + intros [= <- <-]. by rewrite alert_keys_app, Hk1.
Qed.

Lemma run_batches_ok_fetch bs (g g' : odict) ev b :
  run_batches py_float http_get bs g = (ev, Ok g') → b ∈ bs →
  ∃ prices, (fetch_prices http_get b).2 = Ok prices.
Proof.
  revert g ev. induction bs as [|b0 rest IH]; intros g ev; cbn [run_batches].
  - by intros _ ?%elem_of_nil.
  - destruct (fetch_prices http_get b0) as [ev1 [prices|e]] eqn:Hf; [|done].
    destruct (for_games py_float prices b0 g) as [ev2 [g1|e]]; [|done].
    destruct (run_batches py_float http_get rest g1) as [ev3 r3] eqn:Hr.
    intros [= <- ->] [->|Hin]%elem_of_cons.
    + exists prices. by rewrite Hf.
    + by eapply IH.
Qed.

Lemma cycle_settles (g g' : odict) ev :
  od_wf g →
  answers_from http_get source →
  run_batches py_float http_get (batches_of (od_keys g)) g = (ev, Ok g') →
  settled py_float source g'.
Proof.
  intros Hwf Hnet Hrun k s1 gd Hget1 Hsrc.
  pose proof (run_batches_keys _ _ _ _ _ _ Hrun) as Hkeys.
  assert (k ∈ od_keys g) as Hin.
  { rewrite <- Hkeys. by eapply od_get_Some_keys. }
  destruct (od_get g k) as [s0|] eqn:Hget0; [|by apply od_get_None in Hget0].
  pose proof Hrun as Hrun'.
  apply run_batches_hit with (k := k) (gd := gd) (stored := s0)
    in Hrun' as (_ & Hup & _); try done.
  - assert (s1 = update_stored s0 (gd_prices gd)) as -> by congruence.
    apply alerts_of_update_stored.
  - unfold batches_of. by rewrite chunks_concat.
  - unfold batches_of. by rewrite chunks_concat.
  - intros b Hb Hkb.
    destruct (run_batches_ok_fetch _ _ _ _ b Hrun Hb) as [prices Hp].
    exists prices. split; [done|]. rewrite <- Hsrc. by eapply Hnet.
Qed.

(** X8.  No repeated alerts: when the source answers from one table and a
    cycle completes, the cycle that follows it on the saved file sends no
    alert at all. *)
Theorem second_cycle_is_silent (channel : bool) (disk : option odict) :
  let r1 := price_checker py_float http_get true disk in
  let r2 := price_checker py_float http_get channel (r_disk r1) in
  od_wf (load_data disk) →
  answers_from http_get source →
  r_exn r1 = None →
  alert_keys (r_events r2) = [].
Proof.
  intros r1 r2 Hwf Hnet Hdone. subst r1 r2.
  destruct (decide (load_data disk = [])) as [Hnil|Hne].
  - unfold price_checker at 2. rewrite Hnil. cbn [r_disk].
    unfold price_checker. by rewrite Hnil.
  - destruct (price_checker_completed _ _ disk Hne Hdone) as (ev & g' & Hrun & ->).
    cbn [r_disk]. apply cycle_settles in Hrun as Hset; [|done..]. clear Hrun.
    unfold price_checker. cbn [load_data default from_option id].
    destruct g' as [|kv g']; [done|].
    destruct channel; cbn [negb]; [|done].
    rewrite py_range_batches.
    destruct (run_batches py_float http_get (batches_of (od_keys (kv :: g'))) (kv :: g'))
      as [ev2 [g2|e]] eqn:Hr2; cbn [r_events];
      apply run_batches_settled in Hr2; try done.
    rewrite alert_keys_app, Hr2. done.
Qed.

End RepeatedCycle.

(** ** The data file stays well formed *)

Section FileInvariant.

Variable py_float : string → option float.
Variable http_get : list string → http_resp.

(** X9.  Every operation that writes the data file keeps its invariants:
    from a file with distinct keys whose every entry has a name, [!watch],
    [!unwatch] and a cycle each leave such a file, whatever the source
    answers. *)
Theorem operations_keep_file_ok
    (author steam_app_id game_name : string) (channel : bool) (disk : option odict) :
  file_ok disk →
  file_ok (r_disk (watch_game http_get author steam_app_id game_name disk))
  ∧ file_ok (r_disk (unwatch_game steam_app_id disk))
  ∧ file_ok (r_disk (price_checker py_float http_get channel disk)).
Proof.
  intros Hok. split; [|split].
  - by apply watch_game_file_ok.
  - by apply unwatch_game_file_ok.
  - by apply price_checker_file_ok.
Qed.

End FileInvariant.

(** ** Further properties of the commands *)

Lemma od_del_app_last (k : string) (v : pydict) (g : odict) :
  od_get g k = None → od_del k (g ++ [(k, v)]) = g.
Proof.
  induction g as [|[k0 v0] g IH]; simpl.
  - intros _. by rewrite decide_True.
  - destruct (decide (k0 = k)); [done|]. intros H. by rewrite IH.
Qed.

Lemma od_get_app_last (k k' : string) (v : pydict) (g : odict) :
  k ≠ k' → od_get (g ++ [(k, v)]) k' = od_get g k'.
Proof.
  intros Hne. induction g as [|[k0 v0] g IH]; simpl.
  - by rewrite decide_False.
  - by destruct (decide (k0 = k')).
Qed.

Lemma watchlist_fields_named (g : odict) :
  named g →
  ∃ fields, watchlist_fields g = Ok fields
    ∧ Forall2 (λ kv f, f_app_id f = kv.1 ∧ kv.2 !! "name" = Some (f_name f)) g fields.
Proof.
  unfold named. induction g as [|[k v] g IH]; simpl.
  - intros _. exists []. by split.
  - intros [[name Hname] Hg]%Forall_cons. destruct (IH Hg) as (fs & -> & Hfs).
    unfold watchlist_field. simpl in Hname. rewrite Hname.
    eexists. split; [done|]. by constructor.
Qed.

Lemma watchlist_fields_unnamed (g : odict) :
  ¬ named g → watchlist_fields g = Raise (KeyError "name").
Proof.
  unfold named. induction g as [|[k v] g IH]; simpl.
  - intros H. destruct H. constructor.
  - intros Hn. unfold watchlist_field. destruct (v !! "name") as [name|] eqn:Hname; [|done].
    rewrite IH; [done|]. intros Hg. apply Hn. constructor; [by eexists | done].
Qed.

Lemma watchlist_fields_app (g : odict) (k : string) (v : pydict) fs f :
  watchlist_fields g = Ok fs → watchlist_field k v = Ok f →
  watchlist_fields (g ++ [(k, v)]) = Ok (fs ++ [f]).
Proof.
  revert fs. induction g as [|[k0 v0] g IH]; intros fs; simpl.
  - intros [= <-] ->. done.
  - destruct (watchlist_field k0 v0) as [f0|]; [|done].
    destruct (watchlist_fields g) as [fs0|]; [|done].
    intros [= <-] Hf. by rewrite (IH fs0).
Qed.

Lemma show_watchlist_nonempty (g : odict) :
  g ≠ [] →
  show_watchlist (Some g)
  = match watchlist_fields g with
    | Raise e => Raise e
    | Ok fs => Ok (WatchlistEmbed fs)
    end.
Proof. by destruct g. Qed.

Section CommandExtras.

Variable http_get : list string → http_resp.

Lemma watch_game_found author steam_app_id game_name (disk : option odict) prices gd :
  od_get (load_data disk) steam_app_id = None →
  (fetch_prices http_get [steam_app_id]).2 = Ok prices →
  prices !! steam_app_id = Some gd →
  watch_game http_get author steam_app_id game_name disk
  = let entry := new_entry steam_app_id game_name author gd in
    let games' := load_data disk ++ [(steam_app_id, entry)] in
    Run [EFetch [steam_app_id]; ESave games'; EReply (NowWatching entry)] (Some games') None.
Proof.
  intros Hget Hf Hp. unfold watch_game. rewrite Hget.
  assert ((fetch_prices http_get [steam_app_id]).1 = [EFetch [steam_app_id]]) as Hev
    by done.
  destruct (fetch_prices http_get [steam_app_id]) as [ev r]. cbn [fst snd] in *.
  subst ev r. rewrite Hp. cbn zeta. by rewrite od_set_fresh.
Qed.

(** X10.  [!watch] of a key that is already watched asks the source
    nothing and writes nothing: it replies with the stored name and leaves
    the entry, stale baseline included, as it is. *)
Theorem watch_already_watched
    (author steam_app_id game_name : string) (disk : option odict) (stored : pydict) :
  named (load_data disk) →
  od_get (load_data disk) steam_app_id = Some stored →
  ∃ name, stored !! "name" = Some name
    ∧ watch_game http_get author steam_app_id game_name disk
      = Run [EReply (AlreadyWatched name)] disk None.
Proof.
  intros Hnamed Hget. destruct (named_get _ _ _ Hnamed Hget) as [name Hname].
  exists name. split; [done|]. unfold watch_game. by rewrite Hget, Hname.
Qed.

(** X11.  A successful [!watch] requests the key, saves the watchlist once
    with the new entry appended after the existing ones, which stay as they
    were, and initialises the entry's last prices and historical lows with
    the fetched ones. *)
Theorem watch_adds_entry_last
    (author steam_app_id game_name : string) (disk : option odict)
    (prices : gmap string game_data) (gd : game_data) :
  let r := watch_game http_get author steam_app_id game_name disk in
  let entry := new_entry steam_app_id game_name author gd in
  od_get (load_data disk) steam_app_id = None →
  (fetch_prices http_get [steam_app_id]).2 = Ok prices →
  prices !! steam_app_id = Some gd →
  r_disk r = Some (load_data disk ++ [(steam_app_id, entry)])
  ∧ saved (r_events r) = [load_data disk ++ [(steam_app_id, entry)]]
  ∧ network (r_events r) = [Request [steam_app_id]]
  ∧ r_exn r = None
  ∧ od_get (load_data (r_disk r)) steam_app_id = Some entry
  ∧ (∀ k, k ≠ steam_app_id →
       od_get (load_data (r_disk r)) k = od_get (load_data disk) k)
  ∧ (∀ c, entry !! last_key c = Some (py_get (gd_prices gd) (current_key c)))
  ∧ (∀ c, entry !! hist_key c = Some (py_get (gd_prices gd) (fetched_hist_key c))).
Proof.
  intros r entry Hget Hf Hp. subst r.
  rewrite (watch_game_found _ _ _ _ _ _ Hget Hf Hp). cbn zeta. fold entry.
  cbn [r_disk r_events r_exn]. simpl load_data.
  repeat split; try done.
  - rewrite <- (od_set_fresh _ entry _ Hget). apply od_get_set_eq.
  - intros k Hk. by apply od_get_app_last.
  - intros c. subst entry. unfold new_entry. destruct c; by simplify_map_eq.
  - intros c. subst entry. unfold new_entry. destruct c; by simplify_map_eq.
Qed.

(** X12.  [!unwatch] undoes [!watch]: removing a key right after it was
    added leaves the watchlist that was there before the addition. *)
Theorem watch_then_unwatch_restores
    (author steam_app_id game_name : string) (disk : option odict)
    (prices : gmap string game_data) (gd : game_data) :
  od_get (load_data disk) steam_app_id = None →
  (fetch_prices http_get [steam_app_id]).2 = Ok prices →
  prices !! steam_app_id = Some gd →
  r_disk (unwatch_game steam_app_id
            (r_disk (watch_game http_get author steam_app_id game_name disk)))
  = Some (load_data disk).
Proof.
  intros Hget Hf Hp. rewrite (watch_game_found _ _ _ _ _ _ Hget Hf Hp).
  cbn zeta. cbn [r_disk]. unfold unwatch_game. simpl load_data.
  rewrite <- (od_set_fresh _ _ _ Hget), od_get_set_eq.
  destruct (new_entry_named steam_app_id game_name author gd) as [name ->].
  cbn [r_disk]. by rewrite (od_set_fresh _ _ _ Hget), od_del_app_last.
Qed.

(** X13.  [!unwatch] twice: on a file with distinct keys and named
    entries, the second [!unwatch] of the same key always replies NotWatched
    and writes nothing. *)
Theorem unwatch_twice_not_watched (steam_app_id : string) (disk : option odict) :
  let r1 := unwatch_game steam_app_id disk in
  file_ok disk →
  unwatch_game steam_app_id (r_disk r1)
  = Run [EReply (NotWatched steam_app_id)] (r_disk r1) None.
Proof.
  intros r1 [Hwf Hnamed]. subst r1. unfold unwatch_game at 2 3.
  destruct (od_get (load_data disk) steam_app_id) as [stored|] eqn:Hget.
  - destruct (named_get _ _ _ Hnamed Hget) as [name ->]. cbn [r_disk].
    unfold unwatch_game. simpl load_data. by rewrite od_get_del_eq.
  - cbn [r_disk]. unfold unwatch_game. by rewrite Hget.
Qed.

(** X14.  [!watchlist] on a file whose entries all have a name never
    fails: it answers that the list is empty exactly when nothing is
    watched, and otherwise shows one field per watched game, in the order of
    the watchlist, under the stored name.  If some entry lacks its name it
    raises [KeyError] and sends nothing. *)
Theorem show_watchlist_lists_every_game (disk : option odict) :
  (named (load_data disk) →
     match show_watchlist disk with
     | Ok EmptyWatchlist => load_data disk = []
     | Ok (WatchlistEmbed fields) =>
         load_data disk ≠ []
         ∧ f_app_id <$> fields = od_keys (load_data disk)
         ∧ Forall2 (λ kv f, f_app_id f = kv.1 ∧ kv.2 !! "name" = Some (f_name f))
             (load_data disk) fields
     | Raise _ => False
     end)
  ∧ (¬ named (load_data disk) → show_watchlist disk = Raise (KeyError "name")).
Proof.
  unfold show_watchlist. split.
  - intros Hnamed. destruct (load_data disk) as [|kv g] eqn:Hload; [done|].
    destruct (watchlist_fields_named _ Hnamed) as (fs & -> & Hfs).
    split; [done|]. split; [|done].
    clear Hnamed Hload. revert Hfs. generalize (kv :: g). clear.
    intros g Hfs. induction Hfs as [|[k v] f g fs [Hk _] _ IH]; [done|].
    unfold od_keys in *. csimpl. by rewrite Hk, IH.
  - intros Hn. destruct (load_data disk) as [|kv g] eqn:Hload.
    + destruct Hn. constructor.
    + by rewrite watchlist_fields_unnamed.
Qed.

(** X15.  [!watchlist] after a successful [!watch] shows the new game last,
    under the title stored for it, with the prices fetched when it was
    added; a price the source gave as null is shown as [None], since the
    entry holds the key and the ["N/A"] default does not apply. *)
Theorem watchlist_shows_new_game
    (author steam_app_id game_name : string) (disk : option odict)
    (prices : gmap string game_data) (gd : game_data) :
  named (load_data disk) →
  od_get (load_data disk) steam_app_id = None →
  (fetch_prices http_get [steam_app_id]).2 = Ok prices →
  prices !! steam_app_id = Some gd →
  ∃ fields f,
    show_watchlist (r_disk (watch_game http_get author steam_app_id game_name disk))
    = Ok (WatchlistEmbed (fields ++ [f]))
    ∧ watchlist_fields (load_data disk) = Ok fields
    ∧ f_app_id f = steam_app_id
    ∧ Some (f_name f) = new_entry steam_app_id game_name author gd !! "name"
    ∧ f_retail f = py_get (gd_prices gd) "currentRetail"
    ∧ f_keyshops f = py_get (gd_prices gd) "currentKeyshops".
Proof.
  intros Hnamed Hget Hf Hp. rewrite (watch_game_found _ _ _ _ _ _ Hget Hf Hp).
  cbn zeta. cbn [r_disk].
  rewrite show_watchlist_nonempty by (by destruct (load_data disk)).
  destruct (watchlist_fields_named _ Hnamed) as (fs & Hfs & _).
  destruct (new_entry_named steam_app_id game_name author gd) as [name Hname].
  set (entry := new_entry steam_app_id game_name author gd) in *.
  assert (watchlist_field steam_app_id entry
          = Ok (field_of steam_app_id entry name)) as Hfield.
  { unfold watchlist_field. by rewrite Hname. }
  rewrite (watchlist_fields_app _ _ _ _ _ Hfs Hfield).
  exists fs, (field_of steam_app_id entry name).
  split; [done|]. split; [done|]. split; [done|].
  split; [done|]. subst entry. unfold field_of, new_entry, py_get_or. cbn.
  split; by simplify_map_eq.
Qed.


End CommandExtras.

(** ** The further properties on sample data *)

Lemma two_games_ok : file_ok (Some two_games).
Proof.
  split.
  - unfold od_wf. apply (bool_decide_unpack _). vm_compute. exact I.
  - repeat constructor; by eexists.
Defined.

Lemma net_with_answers (p : pydict) : answers_from (net_with p) (table_with p).
Proof.
  intros b prices k Hk. destruct b as [|x b]; [by apply elem_of_nil in Hk|].
  intros [= <-]. unfold table_with. destruct (decide (k = "220")) as [->|Hne].
  - apply lookup_singleton_eq.
  - by apply lookup_singleton_ne.
Defined.

Lemma cycle_without_data_changes_nothing_witness :
  alert_keys (r_events (price_checker decimal_float net_429 true (Some two_games))) = []
  ∧ r_disk (price_checker decimal_float net_429 true (Some two_games)) = Some two_games.
Proof.
  destruct (cycle_without_data_changes_nothing decimal_float net_429 (Some two_games))
    as (_ & H1 & _ & H2).
  - intros b. by left.
  - discriminate.
  - by split.
Defined.

Lemma aborted_cycle_saves_nothing_witness :
  r_disk (price_checker decimal_float net_500 true (Some two_games)) = Some two_games
  ∧ saved (r_events (price_checker decimal_float net_500 true (Some two_games))) = [].
Proof.
  apply (aborted_cycle_saves_nothing decimal_float net_500 true (Some two_games)).
  vm_compute. by eexists.
Defined.

Lemma cycle_alerts_each_product_once_witness :
  NoDup (alert_keys (r_events (price_checker decimal_float (net_with hl2_both_drop) true
                                 (Some two_games)))).
Proof.
  apply (cycle_alerts_each_product_once decimal_float (net_with hl2_both_drop) true
           (Some two_games)).
  apply two_games_ok.
Defined.

Lemma cycle_advances_baseline_witness :
  ∃ updated,
    od_get (load_data (r_disk (price_checker decimal_float (net_with hl2_retail_drop) true
                                 (Some two_games)))) "220" = Some updated
    ∧ updated !! "last_retail" = Some (PStr "4.99")
    ∧ updated !! "name" = Some (PStr "Half-Life 2").
Proof.
  destruct (cycle_advances_baseline decimal_float (net_with hl2_retail_drop)
              (Some two_games) "220" hl2_stored
              (GameData (Some (PStr "Half-Life 2")) None hl2_retail_drop))
    as (updated & H1 & H2 & H3).
  - apply two_games_ok.
  - reflexivity.
  - apply net_with_fetch.
  - vm_compute. reflexivity.
  - exists updated. split; [exact H1|]. split; [exact (H2 Retail)|].
    rewrite H3; [reflexivity|].
    rewrite !not_elem_of_cons. repeat split; (discriminate || apply not_elem_of_nil).
Defined.

Lemma second_cycle_is_silent_witness :
  alert_keys
    (r_events
       (price_checker decimal_float (net_with hl2_both_drop) true
          (r_disk (price_checker decimal_float (net_with hl2_both_drop) true
                     (Some two_games))))) = [].
Proof.
  apply (second_cycle_is_silent decimal_float (net_with hl2_both_drop)
           (table_with hl2_both_drop) true (Some two_games)).
  - apply two_games_ok.
  - apply net_with_answers.
  - vm_compute. reflexivity.
Defined.

Lemma operations_keep_file_ok_witness :
  file_ok (r_disk (watch_game (net_with hl2_retail_drop) "gordon" "220" "" None))
  ∧ file_ok (r_disk (unwatch_game "220" (Some two_games)))
  ∧ file_ok (r_disk (price_checker decimal_float (net_with hl2_retail_drop) true
                       (Some two_games))).
Proof.
  split; [|split].
  - apply (operations_keep_file_ok decimal_float (net_with hl2_retail_drop)
             "gordon" "220" "" true None).
    split; [apply NoDup_nil_2 | constructor].
  - apply (operations_keep_file_ok decimal_float (net_with hl2_retail_drop)
             "gordon" "220" "" true (Some two_games)).
    apply two_games_ok.
  - apply (operations_keep_file_ok decimal_float (net_with hl2_retail_drop)
             "gordon" "220" "" true (Some two_games)).
    apply two_games_ok.
Defined.

Lemma watch_already_watched_witness :
  ∃ name, hl2_stored !! "name" = Some name
    ∧ watch_game (net_with hl2_retail_drop) "gordon" "220" "" (Some two_games)
      = Run [EReply (AlreadyWatched name)] (Some two_games) None.
Proof.
  apply (watch_already_watched (net_with hl2_retail_drop) "gordon" "220" ""
           (Some two_games) hl2_stored).
  - apply two_games_ok.
  - reflexivity.
Defined.

Lemma watch_adds_entry_last_witness :
  r_disk (watch_game (net_with hl2_retail_drop) "gordon" "220" "" (Some [("400", portal_stored)]))
  = Some ([("400", portal_stored)]
          ++ [("220", new_entry "220" "" "gordon"
                        (GameData (Some (PStr "Half-Life 2")) None hl2_retail_drop))]).
Proof.
  refine (proj1 (watch_adds_entry_last (net_with hl2_retail_drop) "gordon" "220" ""
                   (Some [("400", portal_stored)]) _ _ eq_refl eq_refl _)).
  apply lookup_singleton_eq.
Defined.

Lemma watch_then_unwatch_restores_witness :
  r_disk (unwatch_game "220"
            (r_disk (watch_game (net_with hl2_retail_drop) "gordon" "220" ""
                       (Some [("400", portal_stored)]))))
  = Some [("400", portal_stored)].
Proof.
  refine (watch_then_unwatch_restores (net_with hl2_retail_drop) "gordon" "220" ""
            (Some [("400", portal_stored)]) _ _ eq_refl eq_refl _).
  apply lookup_singleton_eq.
Defined.

Lemma unwatch_twice_not_watched_witness :
  unwatch_game "220" (r_disk (unwatch_game "220" (Some two_games)))
  = Run [EReply (NotWatched "220")] (r_disk (unwatch_game "220" (Some two_games))) None.
Proof.
  apply (unwatch_twice_not_watched "220" (Some two_games)). apply two_games_ok.
Defined.

Lemma show_watchlist_lists_every_game_witness :
  match show_watchlist (Some two_games) with
  | Ok (WatchlistEmbed fields) => f_app_id <$> fields = ["220"; "400"]
  | _ => False
  end.
Proof.
  pose proof (proj1 (show_watchlist_lists_every_game (Some two_games))
                (proj2 two_games_ok)) as H.
  destruct (show_watchlist (Some two_games)) as [[|fields]|e]; try done.
  by destruct H as (_ & H & _).
Defined.

Lemma watchlist_shows_new_game_witness :
  ∃ fields f,
    show_watchlist (r_disk (watch_game (net_with hl2_no_retail) "gordon" "220" ""
                              (Some [("400", portal_stored)])))
    = Ok (WatchlistEmbed (fields ++ [f]))
    ∧ f_app_id f = "220" ∧ f_retail f = PNone.
Proof.
  destruct (watchlist_shows_new_game (net_with hl2_no_retail) "gordon" "220" ""
              (Some [("400", portal_stored)])
              {["220" := GameData (Some (PStr "Half-Life 2")) None hl2_no_retail]}
              (GameData (Some (PStr "Half-Life 2")) None hl2_no_retail))
    as (fields & f & H1 & _ & H2 & _ & H3 & _).
  - repeat constructor; by eexists.
  - reflexivity.
  - reflexivity.
  - apply lookup_singleton_eq.
  - exists fields, f. split; [exact H1|]. split; [exact H2|]. exact H3.
Defined.


(** ** The cost of a cycle and the commands under a rate limit *)

Lemma chunks_length fuel (l : list string) :
  length l ≤ fuel → length (chunks fuel l) = (length l + 99) / 100.
Proof.
  revert l. induction fuel as [|fuel IH]; intros l Hl.
  - destruct l; [done | simpl in Hl; lia].
  - destruct (decide (l = [])) as [->|Hne]; [done|].
    rewrite chunks_step by done.
    change (length (take 100 l :: chunks fuel (drop 100 l)))
      with (S (length (chunks fuel (drop 100 l)))).
    rewrite IH by (rewrite length_drop; lia).
    rewrite length_drop. set (n := length l) in *.
    assert (0 < n) as Hn by (subst n; destruct l; [done | simpl; lia]).
    clearbody n.
    destruct (Nat.le_gt_cases n 100) as [Hle|Hgt].
    + replace (n - 100) with 0 by lia.
      rewrite (Nat.div_small 99) by lia.
      apply (Nat.div_unique _ _ _ (n - 1)); lia.
    + replace (n + 99) with ((n - 100 + 99) + 1 * 100) by lia.
      rewrite Nat.div_add by lia. lia.
Qed.

Lemma sep_by_requests (bs : list (list string)) :
  omap request_of (sep_by (Pause 2) (Request <$> bs)) = bs
  ∧ omap pause_of (sep_by (Pause 2) (Request <$> bs)) = replicate (length bs - 1) 2.
Proof.
  induction bs as [|b [|b' rest] IH]; [done..|].
  destruct IH as [IH1 IH2]. split.
  - change (b :: omap request_of (sep_by (Pause 2) (Request <$> b' :: rest))
            = b :: b' :: rest).
    by rewrite IH1.
  - change (2 :: omap pause_of (sep_by (Pause 2) (Request <$> b' :: rest))
            = replicate (length (b :: b' :: rest) - 1) 2).
    rewrite IH2. cbn [length]. by rewrite !Nat.sub_succ, !Nat.sub_0_r.
Qed.

Section CycleCost.

Variable py_float : string → option float.
Variable http_get : list string → http_resp.

(** X18.  A completed cycle over [n] tracked keys makes [(n + 99) / 100]
    requests, one for every started hundred of keys, and one pause of two
    seconds less than requests. *)
Theorem cycle_request_count (disk : option odict) :
  let n := length (od_keys (load_data disk)) in
  let r := price_checker py_float http_get true disk in
  r_exn r = None →
  length (requests (r_events r)) = (n + 99) / 100
  ∧ pauses (r_events r) = replicate ((n + 99) / 100 - 1) 2.
Proof.
  intros n r Hdone. subst n r.
  assert (network (r_events (price_checker py_float http_get true disk))
          = sep_by (Pause 2) (Request <$> batches_of (od_keys (load_data disk))))
    as Hnet.
  { destruct (decide (load_data disk = [])) as [Hnil|Hne].
    - unfold price_checker. by rewrite Hnil.
    - destruct (price_checker_completed _ _ disk Hne Hdone) as (ev & g' & Hrun & ->).
      cbn [r_events]. rewrite network_app. cbn [network omap net_of].
      rewrite app_nil_r. apply run_batches_network in Hrun; [done|].
      eapply Forall_impl; [apply chunks_bounds|].
      intros b [Hb _] ->. simpl in Hb. lia. }
  unfold requests, pauses. rewrite Hnet.
  destruct (sep_by_requests (batches_of (od_keys (load_data disk)))) as [-> ->].
  unfold batches_of. by rewrite chunks_length.
Qed.

End CycleCost.

Section RateLimitedCommands.

Variable http_get : list string → http_resp.

(** X17.  Under a rate limit the commands cannot tell a known game from an
    unknown one: when the request for a key that is not watched is rate
    limited or answered without success, [!watch] replies NotFound and
    writes nothing, and [!price] replies NotFound too. *)
Theorem rate_limit_reads_as_not_found
    (author steam_app_id game_name : string) (disk : option odict) :
  no_data_answer (http_get [steam_app_id]) →
  od_get (load_data disk) steam_app_id = None →
  watch_game http_get author steam_app_id game_name disk
    = Run [EFetch [steam_app_id]; EReply (NotFound steam_app_id)] disk None
  ∧ check_price http_get steam_app_id
    = ([EFetch [steam_app_id]], Ok (PriceNotFound steam_app_id)).
Proof.
  intros Hnet Hget. apply (fetch_prices_no_data http_get) in Hnet.
  unfold watch_game, check_price. rewrite Hget.
  assert ((fetch_prices http_get [steam_app_id]).1 = [EFetch [steam_app_id]]) as Hev
    by done.
  destruct (fetch_prices http_get [steam_app_id]) as [ev r]. cbn [fst snd] in *.
  subst ev r. by rewrite lookup_empty.
Qed.

End RateLimitedCommands.

Lemma cycle_request_count_witness :
  length (requests (r_events (price_checker decimal_float no_data true (Some games_150))))
  = 2.
Proof.
  refine (proj1 (cycle_request_count decimal_float no_data (Some games_150) _)).
  vm_compute. reflexivity.
Defined.

Lemma rate_limit_reads_as_not_found_witness :
  watch_game net_429 "gordon" "220" "" None
  = Run [EFetch ["220"]; EReply (NotFound "220")] None None.
Proof.
  refine (proj1 (rate_limit_reads_as_not_found net_429 "gordon" "220" "" None _ eq_refl)).
  by left.
Defined.

(** ** The save of a cycle *)

Section CycleSave.

Variable py_float : string → option float.
Variable http_get : list string → http_resp.

(** What a completed loop over the batches did for one product, when the
    source answers from a table: its alert and its entry. *)
Lemma run_batches_table source bs (g g' : odict) ev k stored :
  NoDup (concat bs) →
  answers_from http_get source →
  run_batches py_float http_get bs g = (ev, Ok g') →
  k ∈ concat bs →
  od_get g k = Some stored →
  match source k with
  | Some gd =>
      alerts_for k ev = game_alert py_float stored gd
      ∧ od_get g' k = Some (update_stored stored (gd_prices gd))
  | None => alerts_for k ev = [] ∧ od_get g' k = Some stored
  end.
Proof.
  intros Hnd Hnet Hrun Hin Hget. destruct (source k) as [gd|] eqn:Hsrc.
  - pose proof Hrun as Hrun'.
    apply run_batches_hit with (k := k) (gd := gd) (stored := stored)
      in Hrun' as (Ha & Hup & _); try done.
    intros b Hb Hkb.
    destruct (run_batches_ok_fetch _ _ _ _ _ _ b Hrun Hb) as [prices Hp].
    exists prices. split; [done|]. rewrite <- Hsrc. by eapply Hnet.
  - apply run_batches_skip with (k := k) in Hrun as [Ha Hg].
    + split; [done|]. by rewrite (Hg _ eq_refl).
    + intros b prices _ Hkb Hp. rewrite <- Hsrc. by eapply Hnet.
Qed.

(** C8 (as amended).  A cycle over an empty watchlist, or one that does not
    find the channel, does nothing: no request, no alert, no save.  A cycle
    over a non-empty watchlist that finds the channel and is not ended by an
    exception runs the loop over all batches and then writes the data file
    once, as its last action, with the watchlist the loop left; every alert
    is sent inside the loop, so before the save, in the order of the tracked
    keys.  When the keys are distinct and the source answers from a table,
    the watchlist saved holds, for each product, the entry updated from its
    record (or the old entry without record), and the alert sent for it is
    the embed of its drops. *)
Theorem cycle_saves_once_last (channel : bool) (disk : option odict) :
  let games := load_data disk in
  let app_ids := od_keys games in
  let r := price_checker py_float http_get channel disk in
  (games = [] ∨ channel = false → r = Run [] disk None)
  ∧ (games ≠ [] → channel = true → r_exn r = None →
     ∃ ev g',
       for_batches py_float http_get app_ids (py_range 0 (length app_ids) 100) games
         = (ev, Ok g')
       ∧ r_events r = ev ++ [ESave g']
       ∧ saved ev = []
       ∧ saved (r_events r) = [g']
       ∧ r_disk r = Some g'
       ∧ od_keys g' = app_ids
       ∧ alert_keys (r_events r) = alert_keys ev
       ∧ alert_keys ev `sublist_of` app_ids
       ∧ ∀ source, od_wf games → answers_from http_get source →
           ∀ k stored, od_get games k = Some stored →
             match source k with
             | Some gd =>
                 alerts_for k ev = game_alert py_float stored gd
                 ∧ od_get g' k = Some (update_stored stored (gd_prices gd))
             | None => alerts_for k ev = [] ∧ od_get g' k = Some stored
             end).
Proof.
  intros games app_ids r. subst games app_ids r. split.
  - intros H. unfold price_checker.
    destruct (load_data disk) as [|kv g]; [done|].
    destruct H as [[=]| ->]. done.
  - intros Hne -> Hdone.
    destruct (price_checker_completed _ _ disk Hne Hdone) as (ev & g' & Hrun & ->).
    exists ev, g'. cbn [r_events r_disk].
    pose proof (run_batches_trace _ _ _ _ _ _ Hrun) as [Hs Hk].
    pose proof (run_batches_keys _ _ _ _ _ _ Hrun) as Hkeys.
    unfold batches_of in Hk. rewrite chunks_concat in Hk by done.
    rewrite py_range_batches, saved_app, alert_keys_app, Hs. cbn.
    rewrite app_nil_r. repeat split; try done.
    intros source Hwf Hnet k stored Hget.
    eapply run_batches_table; try done.
    + unfold batches_of. by rewrite chunks_concat.
    + unfold batches_of. rewrite chunks_concat by done. by eapply od_get_Some_keys.
Qed.

End CycleSave.

Lemma cycle_saves_once_last_witness :
  price_checker decimal_float (net_with hl2_retail_drop) false (Some two_games)
  = Run [] (Some two_games) None
  ∧ ∃ ev g',
      r_events (price_checker decimal_float (net_with hl2_retail_drop) true
                  (Some two_games)) = ev ++ [ESave g']
      ∧ saved ev = []
      ∧ od_get g' "220" = Some (update_stored hl2_stored hl2_retail_drop)
      ∧ od_get g' "400" = Some portal_stored.
Proof.
  split.
  - apply (proj1 (cycle_saves_once_last decimal_float (net_with hl2_retail_drop) false
                    (Some two_games))).
    by right.
  - destruct (proj2 (cycle_saves_once_last decimal_float (net_with hl2_retail_drop) true
                       (Some two_games)))
      as (ev & g' & _ & H1 & H2 & _ & _ & _ & _ & _ & H3).
    + discriminate.
    + reflexivity.
    + vm_compute. reflexivity.
    + exists ev, g'. split; [exact H1|]. split; [exact H2|].
      pose proof (H3 (table_with hl2_retail_drop) (proj1 two_games_ok)
                    (net_with_answers hl2_retail_drop)) as H.
      split.
      * exact (proj2 (H "220" hl2_stored eq_refl)).
      * exact (proj2 (H "400" portal_stored eq_refl)).
Defined.

(** ** Where an alert comes from *)

Lemma no_send_in_fetch http_get (b : list string) k e :
  ESend k e ∉ (fetch_prices http_get b).1.
Proof.
  destruct b; cbn.
  - by intros ?%elem_of_nil.
  - by intros ?%list_elem_of_singleton.
Qed.

Lemma no_send_in_pause (rest : list (list string)) k e :
  ESend k e ∉ (if rest is [] then [] else [ESleep 2]).
Proof.
  destruct rest.
  - by intros ?%elem_of_nil.
  - by intros ?%list_elem_of_singleton.
Qed.

Lemma fetch_in_events http_get (b : list string) k :
  k ∈ b → EFetch b ∈ (fetch_prices http_get b).1.
Proof.
  destruct b; [by intros ?%elem_of_nil|]. intros _. apply list_elem_of_here.
Qed.

Section AlertOrigin.

Variable py_float : string → option float.
Variable http_get : list string → http_resp.

Lemma compare_channel_real (stored p : pydict) (c : channel) :
  Forall (real_drop py_float stored p)
    (compare_channel py_float c (py_get p (current_key c)) (py_get stored (last_key c))
       (new_currency stored p)).
Proof.
  unfold compare_channel.
  destruct (truthy (py_get p (current_key c)) && truthy (py_get stored (last_key c)));
    [|constructor].
  destruct (py_get p (current_key c)) as [|n] eqn:Hn; [constructor|].
  destruct (py_get stored (last_key c)) as [|o] eqn:Ho; [constructor|].
  destruct (py_float n) as [fn|] eqn:Hfn; [|constructor].
  destruct (py_float o) as [fo|] eqn:Hfo; [|constructor].
  destruct (PrimFloat.ltb fn fo) eqn:Hlt; [|constructor].
  constructor; [|constructor]. exists n, o, fn, fo. by cbn [d_channel].
Qed.

Lemma alerts_of_real (stored p : pydict) :
  Forall (real_drop py_float stored p) (alerts_of py_float stored p).
Proof.
  unfold alerts_of. apply Forall_app. split.
  - apply (compare_channel_real stored p Retail).
  - apply (compare_channel_real stored p Keyshops).
Qed.

Lemma check_game_send prices a (g : odict) ev r k e :
  check_game py_float prices a g = (ev, r) → ESend k e ∈ ev →
  k = a ∧ ∃ stored gd,
    od_get g a = Some stored ∧ prices !! a = Some gd ∧ alert_from py_float stored gd e.
Proof.
  unfold check_game, alert_from.
  destruct (prices !! a) as [gd|]; [|by intros [= <- <-] ?%elem_of_nil].
  destruct (od_get g a) as [stored|]; [|by intros [= <- <-] ?%elem_of_nil].
  cbn [evaluate].
  destruct (alerts_of py_float stored (gd_prices gd)) as [|d l] eqn:Hal;
    [by intros [= <- <-] ?%elem_of_nil|].
  destruct (make_embed stored gd (d :: l)) as [e'|] eqn:Hem;
    [|by intros [= <- <-] ?%elem_of_nil].
  intros [= <- <-] Hin. apply list_elem_of_singleton in Hin. injection Hin as -> ->.
  split; [done|]. exists stored, gd. by rewrite Hal.
Qed.

Lemma for_games_send prices batch (g : odict) ev r k e :
  NoDup batch →
  for_games py_float prices batch g = (ev, r) → ESend k e ∈ ev →
  k ∈ batch ∧ ∃ stored gd,
    od_get g k = Some stored ∧ prices !! k = Some gd ∧ alert_from py_float stored gd e.
Proof.
  revert g ev r. induction batch as [|a rest IH]; intros g ev r Hnd; simpl.
  - by intros [= <- <-] ?%elem_of_nil.
  - apply NoDup_cons in Hnd as [Ha Hnd].
    destruct (check_game py_float prices a g) as [ev1 [g1|ex]] eqn:Hc.
    + destruct (for_games py_float prices rest g1) as [ev2 r2] eqn:Hf.
      intros [= <- <-] [Hin|Hin]%elem_of_app.
      * destruct (check_game_send _ _ _ _ _ _ _ Hc Hin) as (-> & H).
        split; [apply list_elem_of_here | done].
      * destruct (IH _ _ _ Hnd Hf Hin) as (Hk & stored & gd & Hget & Hp & Hal).
        split; [by apply list_elem_of_further|]. exists stored, gd.
        split; [|done]. apply check_game_ok in Hc as [_ Hframe].
        rewrite <- Hframe; [done|]. by intros ->.
    + intros [= <- <-] Hin.
      destruct (check_game_send _ _ _ _ _ _ _ Hc Hin) as (-> & H).
      split; [apply list_elem_of_here | done].
Qed.

Lemma run_batches_send bs (g : odict) ev r k e :
  NoDup (concat bs) →
  run_batches py_float http_get bs g = (ev, r) → ESend k e ∈ ev →
  ∃ b prices stored gd,
    b ∈ bs ∧ EFetch b ∈ ev ∧ k ∈ b
    ∧ (fetch_prices http_get b).2 = Ok prices ∧ prices !! k = Some gd
    ∧ od_get g k = Some stored ∧ alert_from py_float stored gd e.
Proof.
  revert g ev r. induction bs as [|b rest IH]; intros g ev r Hnd; cbn [run_batches].
  - by intros [= <- <-] ?%elem_of_nil.
  - cbn [concat] in Hnd. apply NoDup_app in Hnd as (Hndb & Hdisj & Hndr).
    pose proof (no_send_in_fetch http_get b k e) as Hno1.
    pose proof (fetch_in_events http_get b k) as Hreq.
    pose proof (no_send_in_pause rest k e) as Hnop.
    destruct (fetch_prices http_get b) as [ev1 [prices|ex]] eqn:Hf; cbn [fst snd] in *;
      [|by intros [= <- <-] Hin].
    destruct (for_games py_float prices b g) as [ev2 [g1|ex]] eqn:Hg.
    + destruct (run_batches py_float http_get rest g1) as [ev3 r3] eqn:Hr.
      intros [= <- <-]. rewrite !elem_of_app.
      intros [[Hin|[Hin|Hin]]|Hin]; [done| |done|].
      * destruct (for_games_send _ _ _ _ _ _ _ Hndb Hg Hin)
          as (Hk & stored & gd & Hget & Hp & Hal).
        exists b, prices, stored, gd. rewrite !elem_of_app.
        split; [apply list_elem_of_here|]. split; [left; left; by apply Hreq|].
        rewrite Hf. exact (conj Hk (conj eq_refl (conj Hp (conj Hget Hal)))).
      * destruct (IH _ _ _ Hndr Hr Hin)
          as (b' & prices' & stored & gd & Hb' & Hfetch & Hk & Hp' & Hgd & Hget & Hal).
        exists b', prices', stored, gd. rewrite !elem_of_app.
        split; [by apply list_elem_of_further|]. split; [by right|].
        split; [done|]. split; [done|]. split; [done|]. split; [|done].
        apply for_games_skip with (k := k) in Hg as [_ Hsame].
        -- by rewrite <- (Hsame _ eq_refl).
        -- intros Hkb. exfalso. apply (Hdisj k Hkb). apply elem_of_concat. eauto.
    + intros [= <- <-]. rewrite elem_of_app. intros [Hin|Hin]; [done|].
      destruct (for_games_send _ _ _ _ _ _ _ Hndb Hg Hin)
        as (Hk & stored & gd & Hget & Hp & Hal).
      exists b, prices, stored, gd. rewrite elem_of_app.
      split; [apply list_elem_of_here|]. split; [left; by apply Hreq|].
      rewrite Hf. exact (conj Hk (conj eq_refl (conj Hp (conj Hget Hal)))).
Qed.

(** X1.  No cycle sends an alert without a drop.  On a watchlist with
    distinct keys, every embed a cycle sends for a product is built from the
    entry the data file held for it and from the record a request of this
    cycle returned for it; the embed has at least one drop description, and
    each one quotes that entry's last price and that record's current price
    in its channel, both accepted by [float], the fetched number strictly
    below the stored one. *)
Theorem cycle_alerts_are_drops
    (channel : bool) (disk : option odict) (k : string) (e : embed) :
  let r := price_checker py_float http_get channel disk in
  od_wf (load_data disk) →
  ESend k e ∈ r_events r →
  ∃ b prices stored gd,
    EFetch b ∈ r_events r ∧ k ∈ b
    ∧ (fetch_prices http_get b).2 = Ok prices ∧ prices !! k = Some gd
    ∧ od_get (load_data disk) k = Some stored
    ∧ make_embed stored gd (em_drops e) = Some e
    ∧ em_drops e = (evaluate py_float stored (gd_prices gd)).1
    ∧ em_drops e ≠ []
    ∧ Forall (real_drop py_float stored (gd_prices gd)) (em_drops e).
Proof.
  intros r Hwf. subst r. unfold price_checker.
  destruct (load_data disk) as [|kv g] eqn:Hload; [by intros ?%elem_of_nil|].
  destruct channel; cbn [negb]; [|by intros ?%elem_of_nil].
  rewrite py_range_batches.
  assert (NoDup (concat (batches_of (od_keys (kv :: g))))) as Hnd.
  { unfold batches_of. by rewrite chunks_concat. }
  assert (∀ stored gd, alert_from py_float stored gd e →
            make_embed stored gd (em_drops e) = Some e
            ∧ em_drops e = (evaluate py_float stored (gd_prices gd)).1
            ∧ em_drops e ≠ []
            ∧ Forall (real_drop py_float stored (gd_prices gd)) (em_drops e)) as Hfrom.
  { intros stored gd [Hne Hem]. cbn [evaluate fst].
    assert (em_drops e = alerts_of py_float stored (gd_prices gd)) as ->.
    { revert Hem. unfold make_embed. destruct (stored !! "name"); [|done].
      by intros [= <-]. }
    repeat split; try done. apply alerts_of_real. }
  destruct (run_batches _ _ _ _) as [ev [g'|ex]] eqn:Hr; cbn [r_events].
  - rewrite elem_of_app. intros [Hin|Hin]; [|by apply list_elem_of_singleton in Hin].
    destruct (run_batches_send _ _ _ _ _ _ Hnd Hr Hin)
      as (b & prices & stored & gd & _ & Hfetch & Hk & Hp & Hgd & Hget & Hal).
    destruct (Hfrom _ _ Hal) as (F1 & F2 & F3 & F4).
    exists b, prices, stored, gd. rewrite elem_of_app.
    split; [by left|].
    exact (conj Hk (conj Hp (conj Hgd (conj Hget (conj F1 (conj F2 (conj F3 F4))))))).
  - intros Hin.
    destruct (run_batches_send _ _ _ _ _ _ Hnd Hr Hin)
      as (b & prices & stored & gd & _ & Hfetch & Hk & Hp & Hgd & Hget & Hal).
    destruct (Hfrom _ _ Hal) as (F1 & F2 & F3 & F4).
    exists b, prices, stored, gd.
    exact (conj Hfetch (conj Hk (conj Hp (conj Hgd (conj Hget
             (conj F1 (conj F2 (conj F3 F4)))))))).
Qed.

End AlertOrigin.

Lemma cycle_alerts_are_drops_witness :
  ∃ b prices stored gd,
    EFetch b ∈ r_events (price_checker decimal_float (net_with hl2_retail_drop) true
                           (Some two_games))
    ∧ "220" ∈ b
    ∧ (fetch_prices (net_with hl2_retail_drop) b).2 = Ok prices
    ∧ prices !! "220" = Some gd
    ∧ od_get two_games "220" = Some stored
    ∧ Forall (real_drop decimal_float stored (gd_prices gd))
        [DropDesc Retail (PStr "9.99") (PStr "4.99") (PStr "USD")].
Proof.
  destruct (cycle_alerts_are_drops decimal_float (net_with hl2_retail_drop) true
              (Some two_games) "220"
              {| em_name := PStr "Half-Life 2";
                 em_url := PStr "https://gg.deals/game/half-life-2/";
                 em_drops := [DropDesc Retail (PStr "9.99") (PStr "4.99") (PStr "USD")];
                 em_hist := Some (PStr "0.99", PStr "USD") |})
    as (b & prices & stored & gd & H1 & H2 & H3 & H4 & H5 & _ & _ & _ & H6).
  - apply two_games_ok.
  - vm_compute. apply list_elem_of_further, list_elem_of_here.
  - exists b, prices, stored, gd. by repeat split.
Defined.
